(** * EarthSim user guide: Drawing_Tools.ipynb

    A shallow embedding of the code cells of
    [examples/user_guide/Drawing_Tools.ipynb] and the properties that the
    repository's description states about them.

    Conventions.
    - Coordinates are numpy [float64] values that the notebook only stores,
      moves and prints; its one computation is the product
      [np.random.rand(10, 2)*10].  They are modelled as rationals, in which
      the decimal literals of the notebook are exact.
    - A Python exception is a value of [exn]; code that can raise returns a
      [result].
    - Notebook cells run against a [world]: the kernel namespace, the heap of
      shared objects (source elements and streams), the file system and the
      outputs shown so far. *)

From Stdlib Require Import QArith Lqa.
From stdpp Require Import base option list strings gmap.

Local Open Scope string_scope.
Local Open Scope list_scope.

(** ** Exceptions and results *)

Inductive exn : Type :=
  | NameError (name : string)
  | AttributeError (attr : string)
  | KeyError (key : string)
  | IndexError
  | TypeError
  | FileExistsError
  | FileNotFoundError
  | NotADirectoryError.

Inductive result (A : Type) : Type :=
  | Ok (a : A)
  | Raise (e : exn).
Arguments Ok {A} a.
Arguments Raise {A} e.

#[global] Instance result_ret : MRet result := @Ok.
#[global] Instance result_bind : MBind result := fun A B f r =>
  match r with
  | Ok a => f a
  | Raise e => Raise e
  end.

(** ** Arrays and polygons *)

Definition point : Type := Q * Q.

(** A polygon, as [split()] returns it, is an element holding one geometry;
    [poly.array()] is its N x 2 coordinate array, one row per vertex, which
    is how the polygon is represented here. *)
Definition polygon : Type := list point.

Definition array (poly : polygon) : list point := poly.

(** [a.T] of an N x 2 array, unpacked into its two rows. *)
Definition transpose (a : list point) : list Q * list Q :=
  (fst <$> a, snd <$> a).

(** [a[i]] for a literal, non-negative index. *)
Definition getitem (a : list Q) (i : nat) : result Q :=
  match a !! i with
  | Some v => Ok v
  | None => Raise IndexError
  end.

(** [def bbox(poly)]: the tuple's components are evaluated left to right. *)
Definition bbox (poly : polygon) : result (Q * Q * Q * Q) :=
  let '(xs, ys) := transpose (array poly) in
  x0 ← getitem xs 0;
  y0 ← getitem ys 0;
  x2 ← getitem xs 2;
  y2 ← getitem ys 2;
  mret (x0, y0, x2, y2).

(** ** Elements, streams and the mirrored data *)

(** The geometry wrappers the notebook builds: [gv.Points], [gv.Polygons]
    and [gv.Path]. *)
Inductive element_class : Type :=
  | Points
  | Polygons
  | Path.

(** An element holds a list of geometries, each a list of vertices; a point
    of a [Points] element is a geometry of one vertex. *)
Record element : Type := Element {
  cls : element_class;
  geoms : list polygon
}.

Definition gv_Points (a : list point) : element :=
  Element Points ((fun p => [p]) <$> a).
Definition gv_Polygons (ps : list polygon) : element := Element Polygons ps.
Definition gv_Path (ps : list polygon) : element := Element Path ps.

(** [from holoviews.streams import PointDraw, PolyEdit, BoxEdit, PolyDraw,
    FreehandDraw] *)
Inductive stream_kind : Type :=
  | PointDraw
  | PolyEdit
  | BoxEdit
  | PolyDraw
  | FreehandDraw.

#[global] Instance stream_kind_eq_dec : EqDecision stream_kind.
Proof. solve_decision. Defined.

(** The column dictionary a stream mirrors from the front end, by the
    columns it holds. *)
Inductive cds : Type :=
  | PointColumns (x y : list Q)
  | BoxColumns (x0 x1 y0 y1 : list Q)
  | PathColumns (xs ys : list (list Q)).

(** Shared objects live on a heap and are named by their position in it;
    nothing is ever freed. *)
Definition loc : Type := nat.

Record stream : Type := Stream {
  kind : stream_kind;
  source : loc;
  num_objects : option nat;
  show_vertices : bool;
  data : option cds
}.

Inductive object : Type :=
  | OElement (e : element)
  | OStream (s : stream).

(** ** Files *)

(** A path is the list of its components:
    ['../data/x/y.shp'] is [[".."; "data"; "x"; "y.shp"]], relative to the
    kernel's working directory [[]]. *)
Definition path : Type := list string.

Inductive node : Type :=
  | Dir
  | File (shapes : list polygon).

(** ** Values, outputs and the world *)

Inductive value : Type :=
  | VNone
  | VStr (p : path)
  | VRef (l : loc)
  | VTiles
  | VFunction (name : string)
  | VBounds (lbrt : Q * Q * Q * Q)
  | VDict (columns : list (string * list Q))
  | VArray (a : list point)
  | VShapes (shapes : list polygon)
  | VGeom (g : list polygon)
  | VElement (e : element)
  | VColumns (d : cds)
  | VFrame (rows : list point)
  | VPolygons (ps : list polygon)
  | VTuples (ts : list (Q * Q * Q * Q))
  | VOverlay (layers : list loc).

Inductive output : Type :=
  | Display (v : value)
  | Print (v : value).

Record world : Type := World {
  globals : gmap string value;
  heap : list object;
  fs : gmap path node;
  out : list output
}.

Definition set_globals (g : gmap string value) (w : world) : world :=
  World g (heap w) (fs w) (out w).
Definition set_heap (h : list object) (w : world) : world :=
  World (globals w) h (fs w) (out w).
Definition set_fs (f : gmap path node) (w : world) : world :=
  World (globals w) (heap w) f (out w).
Definition set_out (o : list output) (w : world) : world :=
  World (globals w) (heap w) (fs w) o.

(** ** The cell monad: state that survives an exception *)

Definition M (A : Type) : Type := world → result A * world.

#[global] Instance M_ret : MRet M := fun A a w => (Ok a, w).
#[global] Instance M_bind : MBind M := fun A B f m w =>
  match m w with
  | (Ok a, w') => f a w'
  | (Raise e, w') => (Raise e, w')
  end.

Definition raise {A} (e : exn) : M A := fun w => (Raise e, w).
Definition get : M world := fun w => (Ok w, w).
Definition lift {A} (r : result A) : M A := fun w => (r, w).

(** Reading and binding a global name. *)
Definition name (n : string) : M value :=
  w ← get;
  match globals w !! n with
  | Some v => mret v
  | None => raise (NameError n)
  end.

Definition assign (n : string) (v : value) : M unit :=
  fun w => (Ok (), set_globals (<[n := v]> (globals w)) w).

(** Creating a shared object. *)
Definition new (o : object) : M value :=
  fun w => (Ok (VRef (length (heap w))), set_heap (heap w ++ [o]) w).

(** [display(v)] and the value of a cell's last expression, which the
    front end shows unless it is [None]. *)
Definition display (v : value) : M unit :=
  fun w => (Ok (), set_out (out w ++ [Display v]) w).

Definition print (v : value) : M unit :=
  fun w => (Ok (), set_out (out w ++ [Print v]) w).

Definition last_expression (v : value) : M unit :=
  match v with
  | VNone => mret ()
  | _ => display v
  end.

(** ** The libraries, as far as the notebook uses them *)

(** Attribute access on a shared object. *)
Definition the_stream (attr : string) (v : value) : M stream :=
  w ← get;
  match v with
  | VRef l =>
      match heap w !! l with
      | Some (OStream s) => mret s
      | _ => raise (AttributeError attr)
      end
  | _ => raise (AttributeError attr)
  end.

Definition the_element (attr : string) (v : value) : M element :=
  w ← get;
  match v with
  | VRef l =>
      match heap w !! l with
      | Some (OElement e) => mret e
      | _ => raise (AttributeError attr)
      end
  | VElement e => mret e
  | _ => raise (AttributeError attr)
  end.

(** [Stream(source=src, num_objects=n, show_vertices=b)]: the stream starts
    without data; the front end fills it in. *)
Definition new_stream (k : stream_kind) (src : value)
    (n : option nat) (b : bool) : M value :=
  match src with
  | VRef l => new (OStream (Stream k l n b None))
  | _ => raise TypeError
  end.

(** [hv.Bounds((l, b, r, t))] as the closed outline [gv.Polygons] draws. *)
Definition bounds_outline (lbrt : Q * Q * Q * Q) : polygon :=
  let '(l, b, r, t) := lbrt in [(l, b); (l, t); (r, t); (r, b); (l, b)].

(** A dictionary of two coordinate columns, as [gv.Polygons] and [gv.Path]
    accept it. *)
Definition dict_outline (columns : list (string * list Q)) : result polygon :=
  match columns with
  | [(_, lon); (_, lat)] => Ok (zip lon lat)
  | _ => Raise TypeError
  end.

(** The geometries a column dictionary stands for.  [BoxEdit] turns each
    box into [xs = [x0, x0, x1, x1]], [ys = [y0, y1, y1, y0]] and, its
    source being a [Polygons] element as the notebook's is, closes the ring
    with the first vertex: an array of five rows. *)
Definition box_polygon (b : Q * Q * Q * Q) : polygon :=
  let '(x0, x1, y0, y1) := b in
  [(x0, y0); (x0, y1); (x1, y1); (x1, y0); (x0, y0)].

Definition zip4 (a b c d : list Q) : list (Q * Q * Q * Q) :=
  zip (zip (zip a b) c) d.

Definition geometries (d : cds) : list polygon :=
  match d with
  | PointColumns x y => (fun p => [p]) <$> zip x y
  | BoxColumns x0 x1 y0 y1 => box_polygon <$> zip4 x0 x1 y0 y1
  | PathColumns xs ys => zip_with zip xs ys
  end.

(** Truth value of [stream.data]: [None] is false, a dictionary with
    columns is true (even when the columns are empty). *)
Definition data_truth (d : option cds) : bool :=
  match d with
  | None => false
  | Some _ => true
  end.

(** [stream.element]: a clone of the source holding the mirrored data, an
    empty clone when there is none. *)
Definition element_of (s : stream) (src : element) : element :=
  match data s with
  | None => Element (cls src) []
  | Some d => Element (cls src) (geometries d)
  end.

Definition stream_data (v : value) : M (option cds) :=
  s ← the_stream "data" v;
  mret (data s).

Definition stream_element (v : value) : M element :=
  s ← the_stream "element" v;
  src ← the_element "clone" (VRef (source s));
  mret (element_of s src).

(** Truth value of an element: whether it holds anything. *)
Definition nonzero (e : element) : bool :=
  match geoms e with
  | [] => false
  | _ :: _ => true
  end.

(** [element.dframe()]: one row per coordinate. *)
Definition dframe (e : element) : list point := concat (geoms e).

(** [element.split()]: one polygon per geometry (paths and polygons). *)
Definition split (e : element) : result (list polygon) :=
  match cls e with
  | Points => Raise (AttributeError "split")
  | _ => Ok (geoms e)
  end.

(** [np.random.rand(n, 2)] for a source [rand] of random numbers, and
    [a*c]. *)
Definition random_rand (rand : nat → nat → Q) (n : nat) : list point :=
  (fun i => (rand i 0%nat, rand i 1%nat)) <$> seq 0 n.

Definition scale (c : Q) (a : list point) : list point :=
  (fun p => (fst p * c, snd p * c)%Q) <$> a.

(** *** The file system *)

(** [os.path.dirname] *)
Definition dirname (p : path) : path := removelast p.

(** [os.path.exists], [os.path.isdir] *)
Definition path_exists (f : gmap path node) (p : path) : bool :=
  bool_decide (is_Some (f !! p)).

Definition path_isdir (f : gmap path node) (p : path) : bool :=
  match f !! p with
  | Some Dir => true
  | _ => false
  end.

Definition os_path_isdir (p : path) : M bool :=
  w ← get; mret (path_isdir (fs w) p).

(** [os.mkdir]: a path of one component is created in the working
    directory. *)
Definition os_mkdir (p : path) : M unit :=
  fun w =>
    match p with
    | [] => (Raise FileNotFoundError, w)
    | _ :: _ =>
        if path_exists (fs w) p then (Raise FileExistsError, w)
        else match dirname p with
             | [] => (Ok (), set_fs (<[p := Dir]> (fs w)) w)
             | d =>
                 if path_isdir (fs w) d then
                   (Ok (), set_fs (<[p := Dir]> (fs w)) w)
                 else if path_exists (fs w) d then (Raise NotADirectoryError, w)
                 else (Raise FileNotFoundError, w)
             end
    end.

(** [os.makedirs(name)], with [exist_ok=False]:
<<
    head, tail = path.split(name)
    if head and tail and not path.exists(head):
        try: makedirs(head)
        except FileExistsError: pass
        if tail == curdir: return
    mkdir(name)
>>
    by recursion on the reversed path, whose first component is [tail]. *)
Definition os_path_exists (p : path) : M bool :=
  w ← get; mret (path_exists (fs w) p).

Definition tolerate_existing (m : M unit) : M unit :=
  fun w =>
    match m w with
    | (Raise FileExistsError, w') => (Ok (), w')
    | r => r
    end.

Fixpoint makedirs_rev (rname : list string) : M unit :=
  match rname with
  | [] => os_mkdir []
  | tail :: rhead =>
      match rhead with
      | [] => os_mkdir (rev (tail :: rhead))
      | _ :: _ =>
          found ← os_path_exists (rev rhead);
          if found : bool then os_mkdir (rev (tail :: rhead))
          else
            tolerate_existing (makedirs_rev rhead);;
            if bool_decide (tail = ".") then mret ()
            else os_mkdir (rev (tail :: rhead))
      end
  end.

Definition os_makedirs (p : path) : M unit := makedirs_rev (rev p).

(** [gv.Shape.from_shapefile(p)]: the shapes stored in the file. *)
Definition from_shapefile (p : path) : M (list polygon) :=
  w ← get;
  match fs w !! p with
  | Some (File shapes) => mret shapes
  | _ => raise FileNotFoundError
  end.

(** [x.opts()]: display options are not part of the model, so clearing
    them gives the object back; arrays, strings and the like have no
    [opts]. *)
Definition opts (v : value) : M value :=
  match v with
  | VShapes _ | VElement _ => mret v
  | VRef _ => _ ← the_element "opts" v; mret v
  | _ => raise (AttributeError "opts")
  end.

(** Modelled from the spec: [earthsim.io.save_shapefile] is not among the
    sources.  What it writes at [save_path] is the "on-disk persisted form
    of an edited polygon", "round-tripped through a standard vector geometry
    file format": the polygons of the data.  The file is created in an
    existing directory. *)
Definition write_shapefile (d : cds) (save_path : path) : M unit :=
  fun w =>
    if path_isdir (fs w) (dirname save_path) then
      (Ok (), set_fs (<[save_path := File (geometries d)]> (fs w)) w)
    else (Raise FileNotFoundError, w).

(** Modelled from the spec: [earthsim.io.save_shapefile(cdsdata, save_path,
    template_path)], not among the sources.  The template file supplies the
    schema and has to be readable; there has to be data to write. *)
Definition save_shapefile (cdsdata : option cds) (save_path template_path : path)
    : M unit :=
  _ ← from_shapefile template_path;
  match cdsdata with
  | None => raise TypeError
  | Some d => write_shapefile d save_path
  end.

(** ** The cells *)

(** The cells are modelled as they run in a kernel in which the imports of
    lines 20-30 and of line 195 succeed and [hv.extension] has registered
    the [%%opts] magic: a cell's [%%opts] line only sets display options,
    which are not part of the model. *)

(** Lines 20-30. *)
Definition cell_imports : M unit :=
  assign "tiles" VTiles.

(** [tiles * a * b]: the plot of the named elements over the tiles, as the
    value of the cell. *)
Definition layer (n : string) : M loc :=
  v ← name n;
  match v with
  | VRef l => _ ← the_element "__mul__" v; mret l
  | _ => raise TypeError
  end.

Definition overlay (ns : list string) : M unit :=
  _ ← name "tiles";
  ls ← mapM layer ns;
  last_expression (VOverlay ls).

(** Lines 56-59.  A name bound earlier in the same cell is read as the
    value it was bound to. *)
Definition cell_points (rand : nat → nat → Q) : M unit :=
  points ← new (OElement (gv_Points (scale 10 (random_rand rand 10))));
  assign "points" points;;
  point_stream ← new_stream PointDraw points (Some 10%nat) false;
  assign "point_stream" point_stream;;
  overlay ["points"].

(** The tests [if stream.data:] and [if stream.element:]. *)
Definition if_data (stream_name : string) : M bool :=
  s ← name stream_name;
  d ← stream_data s;
  mret (data_truth d).

Definition if_element (stream_name : string) : M bool :=
  s ← name stream_name;
  e ← stream_element s;
  mret (nonzero e).

(** Lines 77-78. *)
Definition cell_show_points : M unit :=
  b ← if_data "point_stream";
  if b : bool then
    point_stream ← name "point_stream";
    e ← stream_element point_stream;
    display (VFrame (dframe e))
  else mret ().

(** Lines 106-113. *)
Definition cell_boxes : M unit :=
  let sample_box := (-90.99, 32.25, -90.85, 32.37)%Q in
  assign "sample_box" (VBounds sample_box);;
  box_poly ← new (OElement (gv_Polygons [bounds_outline sample_box]));
  assign "box_poly" box_poly;;
  box_stream ← new_stream BoxEdit box_poly (Some 3%nat) false;
  assign "box_stream" box_stream;;
  overlay ["box_poly"].

(** Lines 129-137. *)
Definition cell_show_boxes : M unit :=
  assign "bbox" (VFunction "bbox");;
  b ← if_element "box_stream";
  if b : bool then
    box_stream ← name "box_stream";
    e ← stream_element box_stream;
    polygons ← lift (split e);
    assign "polygons" (VPolygons polygons);;
    bboxes ← lift (mapM bbox polygons);
    assign "bboxes" (VTuples bboxes);;
    print (VTuples bboxes)
  else mret ().

(** Lines 172-178. *)
Definition shapefile : path :=
  [".."; "data"; "vicksburg_watershed"; "watershed_boundary.shp"].

Definition cell_mask : M unit :=
  assign "shapefile" (VStr shapefile);;
  shapes ← from_shapefile shapefile;
  match shapes with
  | [] => raise (KeyError "0")
  | first :: _ =>
      assign "mask_shape" (VArray first);;
      mask_poly ← new (OElement (gv_Polygons [first]));
      assign "mask_poly" mask_poly;;
      vertex_stream ← new_stream PolyEdit mask_poly None false;
      assign "vertex_stream" vertex_stream;;
      overlay ["mask_poly"]
  end.

(** Lines 194-203.  [prepare_directory] is lines 197-199: what runs between
    the test of line 196 and the call of [save_shapefile]. *)
Definition edited_shape_fname : path :=
  [".."; "data"; "vicksburg_watershed_edited"; "watershed_boundary.shp"].

Definition prepare_directory : M path :=
  assign "edited_shape_fname" (VStr edited_shape_fname);;
  let dir_name := dirname edited_shape_fname in
  assign "dir_name" (VStr dir_name);;
  isdir ← os_path_isdir dir_name;
  (if negb isdir then os_makedirs dir_name else mret ());;
  mret edited_shape_fname.

Definition the_path (v : value) : M path :=
  match v with
  | VStr p => mret p
  | _ => raise TypeError
  end.

Definition save_and_reload (fname : path) : M unit :=
  vertex_stream ← name "vertex_stream";
  d ← stream_data vertex_stream;
  template ← name "shapefile";
  template ← the_path template;
  save_shapefile d fname template;;
  shapes ← from_shapefile fname;
  assign "mask_shape" (VShapes shapes).

(** Lines 202-203. *)
Definition show_mask : M unit :=
  mask_shape ← name "mask_shape";
  mask_shape ← opts mask_shape;
  assign "mask_shape" mask_shape;;
  last_expression mask_shape.

Definition cell_save : M unit :=
  assign "save_shapefile" (VFunction "save_shapefile");;
  b ← if_data "vertex_stream";
  (if b : bool then
     fname ← prepare_directory;
     save_and_reload fname
   else mret ());;
  show_mask.

(** Lines 227-230. *)
Definition cell_freehand : M unit :=
  path ← new (OElement (gv_Path [[(0, 52); (-74, 43)]%Q]));
  assign "path" path;;
  freehand_stream ← new_stream FreehandDraw path (Some 3%nat) false;
  assign "freehand_stream" freehand_stream;;
  overlay ["path"].

(** Line 239, and line 288 for ["path_stream"]. *)
Definition cell_show_element_data (stream_name : string) : M unit :=
  s ← name stream_name;
  e ← stream_element s;
  last_expression (VPolygons (geoms e)).

(** Lines 265-279. *)
Definition sample_poly : list (string * list Q) :=
  [("Longitude", [-90.86; -90.94; -91.0; -90.92; -91.0; -90.94]%Q);
   ("Latitude", [32.33; 32.37; 32.34; 32.32; 32.27; 32.25]%Q)].

Definition sample_path : list (string * list Q) :=
  [("Longitude", [-90.99; -90.90; -90.90; -90.98]%Q);
   ("Latitude", [32.35; 32.34; 32.32; 32.25]%Q)].

Definition cell_polys : M unit :=
  assign "sample_poly" (VDict sample_poly);;
  assign "sample_path" (VDict sample_path);;
  outline ← lift (dict_outline sample_poly);
  new_polys ← new (OElement (gv_Polygons [outline]));
  assign "new_polys" new_polys;;
  outline ← lift (dict_outline sample_path);
  new_paths ← new (OElement (gv_Path [outline]));
  assign "new_paths" new_paths;;
  poly_stream ← new_stream PolyDraw new_polys None true;
  assign "poly_stream" poly_stream;;
  path_stream ← new_stream PolyDraw new_paths None true;
  assign "path_stream" path_stream;;
  overlay ["new_polys"; "new_paths"].

(** Lines 306 and 315. *)
Definition cell_show_geom (stream_name : string) : M unit :=
  s ← name stream_name;
  e ← stream_element s;
  last_expression (VGeom (geoms e)).

(** Lines 340-344. *)
Definition the_dict (v : value) : M (list (string * list Q)) :=
  match v with
  | VDict columns => mret columns
  | _ => raise TypeError
  end.

Definition cell_draw_and_edit : M unit :=
  sample_poly ← name "sample_poly";
  columns ← the_dict sample_poly;
  outline ← lift (dict_outline columns);
  new_polys ← new (OElement (gv_Polygons [outline]));
  assign "new_polys" new_polys;;
  poly_stream ← new_stream PolyDraw new_polys None false;
  assign "poly_stream" poly_stream;;
  vertex_stream ← new_stream PolyEdit new_polys None false;
  assign "vertex_stream" vertex_stream;;
  overlay ["new_polys"].

(** Line 353. *)
Definition cell_show_poly_data : M unit :=
  poly_stream ← name "poly_stream";
  d ← stream_data poly_stream;
  last_expression (match d with None => VNone | Some d => VColumns d end).

(** Line 362. *)
Definition cell_show_poly_element : M unit :=
  poly_stream ← name "poly_stream";
  e ← stream_element poly_stream;
  last_expression (VElement e).

(** The code cells, top to bottom: those that build elements and streams,
    and those that read the streams back after the drawing. *)
Definition configuration (rand : nat → nat → Q) : list (M unit) :=
  [ cell_imports; cell_points rand; cell_boxes; cell_mask; cell_freehand;
    cell_polys; cell_draw_and_edit ].

Definition post_edit : list (M unit) :=
  [ cell_show_points; cell_show_boxes; cell_save;
    cell_show_element_data "freehand_stream";
    cell_show_element_data "path_stream"; cell_show_geom "poly_stream";
    cell_show_geom "path_stream"; cell_show_poly_data;
    cell_show_poly_element ].

(** The names the configuration binds to source elements and streams. *)
Definition configured_names : list string :=
  [ "points"; "point_stream"; "box_poly"; "box_stream"; "mask_poly";
    "vertex_stream"; "path"; "freehand_stream"; "new_polys"; "new_paths";
    "poly_stream"; "path_stream" ].

(** Running cells one after the other; a cell that raises stops the run.
    The kernel starts with an empty namespace and heap. *)
Definition run_all (cells : list (M unit)) : M unit :=
  foldr (fun c k => c;; k) (mret ()) cells.

Definition fresh_kernel (f : gmap path node) : world := World ∅ [] f [].

(** The front end reports the canvas of the plot to the stream at [l]. *)
Definition front_end_update (l : loc) (d : cds) : M unit :=
  fun w =>
    match heap w !! l with
    | Some (OStream s) =>
        let s' := Stream (kind s) (source s) (num_objects s)
                    (show_vertices s) (Some d) in
        (Ok (), set_heap (<[l := OStream s']> (heap w)) w)
    | _ => (Raise TypeError, w)
    end.

(** ** The stream bindings on a heap *)

Definition streams (h : list object) : list stream :=
  omap (fun o => match o with OStream s => Some s | OElement _ => None end) h.

Definition adapter_kinds (h : list object) : list stream_kind :=
  remove_dups (kind <$> streams h).

Definition is_wrapper (h : list object) (l : loc) : bool :=
  match h !! l with
  | Some (OElement _) => true
  | _ => false
  end.

Definition adapters_of (h : list object) (l : loc) : list stream :=
  filter (fun s => source s = l) (streams h).

(** The streams with [num_objects] set: kind, limit and what their source
    puts on the canvas to begin with. *)
Definition limited_streams (h : list object)
    : list (stream_kind * nat * list polygon) :=
  omap (fun s =>
          match num_objects s, h !! source s with
          | Some n, Some (OElement e) => Some (kind s, n, geoms e)
          | _, _ => None
          end)
    (streams h).

(** The heap the configuration builds, for the random numbers [rand] and
    the first shape [first] of the shapefile. *)
Definition configured_heap (rand : nat → nat → Q) (first : polygon)
    : list object :=
  [ (* 0 *) OElement (gv_Points (scale 10 (random_rand rand 10)));
    (* 1 *) OStream (Stream PointDraw 0 (Some 10%nat) false None);
    (* 2 *) OElement (gv_Polygons
              [bounds_outline (-90.99, 32.25, -90.85, 32.37)%Q]);
    (* 3 *) OStream (Stream BoxEdit 2 (Some 3%nat) false None);
    (* 4 *) OElement (gv_Polygons [first]);
    (* 5 *) OStream (Stream PolyEdit 4 None false None);
    (* 6 *) OElement (gv_Path [[(0, 52); (-74, 43)]%Q]);
    (* 7 *) OStream (Stream FreehandDraw 6 (Some 3%nat) false None);
    (* 8 *) OElement (gv_Polygons
              [zip [-90.86; -90.94; -91.0; -90.92; -91.0; -90.94]%Q
                   [32.33; 32.37; 32.34; 32.32; 32.27; 32.25]%Q]);
    (* 9 *) OElement (gv_Path
              [zip [-90.99; -90.90; -90.90; -90.98]%Q
                   [32.35; 32.34; 32.32; 32.25]%Q]);
    (* 10 *) OStream (Stream PolyDraw 8 None true None);
    (* 11 *) OStream (Stream PolyDraw 9 None true None);
    (* 12 *) OElement (gv_Polygons
               [zip [-90.86; -90.94; -91.0; -90.92; -91.0; -90.94]%Q
                    [32.33; 32.37; 32.34; 32.32; 32.27; 32.25]%Q]);
    (* 13 *) OStream (Stream PolyDraw 12 None false None);
    (* 14 *) OStream (Stream PolyEdit 12 None false None) ].

(** ** The drawing tools *)

(** Modelled from the spec: the drawing tools belong to the plotting toolkit,
    not to the sources.  A stream mirrors the objects on the canvas, oldest
    first; objects are added, moved and deleted, with "oldest-first eviction
    once a configured maximum object count is exceeded".  Moving or deleting
    at a position that holds no object does nothing. *)
Inductive gesture (A : Type) : Type :=
  | Add (o : A)
  | Move (i : nat) (o : A)
  | Delete (i : nat).
Arguments Add {A} o.
Arguments Move {A} i o.
Arguments Delete {A} i.

(** Modelled from the spec: once the limit is exceeded the oldest object
    goes. *)
Definition evict {A} (limit : option nat) (objs : list A) : list A :=
  match limit with
  | Some n => if (n <? length objs)%nat then tail objs else objs
  | None => objs
  end.

(** Modelled from the spec: what a gesture does to the mirrored objects. *)
Definition draw {A} (limit : option nat) (objs : list A) (g : gesture A)
    : list A :=
  match g with
  | Add o => evict limit (objs ++ [o])
  | Move i o => <[i := o]> objs
  | Delete i => delete i objs
  end.

(** Modelled from the spec: the mirrored objects after a series of
    gestures. *)
Definition mirror {A} (limit : option nat) (objs : list A)
    (gs : list (gesture A)) : list A :=
  foldl (draw limit) objs gs.

(** ** Rectangles and bounding boxes *)

(** A polygon of four vertices [a b c d], in the order they are joined,
    whose sides are parallel to the axes: the side [a b] is vertical and
    [b c] horizontal, or the other way round.  Its array holds the four
    vertices, or is the closed ring of five rows that ends with the first
    vertex again, which is how the BoxEdit stream hands it out. *)
Definition axis_aligned_rectangle (poly : polygon) : Prop :=
  ∃ a b c d : point,
    (poly = [a; b; c; d] ∨ poly = [a; b; c; d; a]) ∧
    ((a.1 = b.1 ∧ b.2 = c.2 ∧ c.1 = d.1 ∧ d.2 = a.2) ∨
     (a.2 = b.2 ∧ b.1 = c.1 ∧ c.2 = d.2 ∧ d.1 = a.1)).

(** The four corners of the box with opposite corners [(x0, y0)] and
    [(x2, y2)]. *)
Definition corners (t : Q * Q * Q * Q) : list point :=
  let '(x0, y0, x2, y2) := t in [(x0, y0); (x0, y2); (x2, y2); (x2, y0)].

(** [v] lies between [a] and [b], whichever of the two is smaller. *)
Definition between (a b v : Q) : Prop :=
  (a <= v ∧ v <= b)%Q ∨ (b <= v ∧ v <= a)%Q.

Definition inside (t : Q * Q * Q * Q) (p : point) : Prop :=
  let '(x0, y0, x2, y2) := t in between x0 x2 p.1 ∧ between y0 y2 p.2.

(** ** What a computation may change *)

(** [preserves R m]: running [m] takes every world to one that [R] relates
    to it, whether [m] returns or raises. *)
Definition preserves {A} (R : relation world) (m : M A) : Prop :=
  ∀ w, R w (m w).2.

(** The shared objects (the source elements and the streams with the data
    they mirror) are the same, and so is what the names of the configuration
    are bound to. *)
Definition same_objects : relation world := fun w w' =>
  heap w' = heap w ∧
  Forall (fun n => globals w' !! n = globals w !! n) configured_names.

(** Nothing at all has changed. *)
Definition unchanged : relation world := fun w w' => w' = w.

(** ** Sample worlds *)

(** A file system holding the watershed shapefile with one triangle, random
    numbers that are all [0.5], and the kernel after the configuration. *)
Definition sample_files : gmap path node :=
  <[shapefile := File [[(0, 0); (4, 0); (4, 3)]%Q]]>
    (<[[".."; "data"; "vicksburg_watershed"] := Dir]>
       (<[[".."; "data"] := Dir]> (<[[".."] := Dir]> ∅))).

Definition sample_rand : nat → nat → Q := fun _ _ => 0.5%Q.

Definition configured_kernel : world :=
  (run_all (configuration sample_rand) (fresh_kernel sample_files)).2.

(** The same kernel after the front end has reported an edited polygon to
    [vertex_stream] (the stream at 14), and that kernel when a regular
    file sits where the output directory should be. *)
Definition edited_kernel : world :=
  (front_end_update 14 (PathColumns [[0; 4; 4; 1]%Q] [[0; 0; 3; 2]%Q])
     configured_kernel).2.

(** The configured kernel after the front end has reported a canvas from
    which every point has been removed: the columns are there, and empty. *)
Definition cleared_kernel : world :=
  (front_end_update 1 (PointColumns [] []) configured_kernel).2.

Definition blocked_kernel : world :=
  set_fs (<[dirname edited_shape_fname := File []]> (fs edited_kernel))
    edited_kernel.

(** The kernel after the edited shape has been saved and the last
    configuration cell has been run again, which binds [vertex_stream] to a
    new stream. *)
Definition redrawn_kernel : world :=
  (run_all [cell_save; cell_draw_and_edit] edited_kernel).2.

(** ** What the cells may change, continued *)

(** Objects are only added to the heap: the ones that were there are the
    same, at the same places. *)
Definition heap_grows : relation world := fun w w' =>
  heap w `prefix_of` heap w'.

(** The files are the same. *)
Definition same_files : relation world := fun w w' => fs w' = fs w.

(** Every entry of the file system is kept as it is; what is new is a
    directory. *)
Definition files_kept : relation world := fun w w' =>
  ∀ p, fs w' !! p = fs w !! p ∨ (fs w !! p = None ∧ fs w' !! p = Some Dir).

(** The cells that show what a stream holds, with the name of the stream
    they read; with the shapefile cell they are the cells that read the
    streams back. *)
Definition shows : list (string * M unit) :=
  [ ("point_stream", cell_show_points);
    ("box_stream", cell_show_boxes);
    ("freehand_stream", cell_show_element_data "freehand_stream");
    ("path_stream", cell_show_element_data "path_stream");
    ("poly_stream", cell_show_geom "poly_stream");
    ("path_stream", cell_show_geom "path_stream");
    ("poly_stream", cell_show_poly_data);
    ("poly_stream", cell_show_poly_element) ].

(** Running the cell again shows the same again. *)
Definition repeatable (c : M unit) : Prop :=
  ∀ w,
    let w1 := (c w).2 in
    (c w1).1 = (c w).1 ∧
    ∃ shown, out w1 = out w ++ shown ∧ out (c w1).2 = out w1 ++ shown.

(** * Properties *)

(** ** [bbox] *)

Example bbox_sample :
  bbox [(-90.99, 32.25); (-90.99, 32.37); (-90.85, 32.37); (-90.85, 32.25)]%Q
  = Ok (-90.99, 32.25, -90.85, 32.37)%Q.
Proof. reflexivity. Qed.

(** [bbox] in terms of the vertices it reads. *)
Lemma bbox_lookup (poly : polygon) :
  bbox poly =
    match poly !! 0%nat, poly !! 2%nat with
    | Some (x0, y0), Some (x2, y2) => Ok (x0, y0, x2, y2)
    | _, _ => Raise IndexError
    end.
Proof.
  destruct poly as [|[x0 y0] [|b [|[x2 y2] poly]]]; reflexivity.
Qed.

Lemma between_left a b : between a b a.
Proof.
  unfold between. destruct (Qlt_le_dec a b) as [H|H].
  - left. split; [apply Qle_refl | by apply Qlt_le_weak].
  - right. split; [done | apply Qle_refl].
Qed.

Lemma between_right a b : between a b b.
Proof.
  unfold between. destruct (Qlt_le_dec a b) as [H|H].
  - left. split; [by apply Qlt_le_weak | apply Qle_refl].
  - right. split; [apply Qle_refl | done].
Qed.

(** What [BoxEdit] hands out is such a rectangle, as a closed ring. *)
Lemma box_polygon_rectangle b : axis_aligned_rectangle (box_polygon b).
Proof.
  destruct b as [[[x0 x1] y0] y1].
  exists (x0, y0), (x0, y1), (x1, y1), (x1, y0).
  split; [by right|]. by left.
Qed.

Lemma box_stream_rectangles x0 x1 y0 y1 :
  Forall axis_aligned_rectangle (geometries (BoxColumns x0 x1 y0 y1)).
Proof.
  simpl. apply Forall_fmap, Forall_forall. intros b _.
  apply box_polygon_rectangle.
Qed.

Lemma inside_corners x0 y0 x2 y2 :
  Forall (inside (x0, y0, x2, y2)) (corners (x0, y0, x2, y2)).
Proof.
  repeat (apply Forall_cons; split); try apply Forall_nil;
    split; simpl; auto using between_left, between_right.
Qed.

(** C1. For an axis-aligned rectangle of four vertices, as the BoxEdit
    stream returns it (a closed ring of five rows) or as the bare four rows,
    [bbox] is the tuple [(xs[0], ys[0], xs[2], ys[2])] of the first and
    third vertex; these two are opposite corners, that is, the rectangle's
    four vertices are the four corners of the box they span, every row of
    the array is one of these corners, and every row lies inside that
    box. *)
Theorem bbox_rectangle (poly : polygon) :
  axis_aligned_rectangle poly →
  ∃ x0 y0 x2 y2,
    poly !! 0%nat = Some (x0, y0) ∧ poly !! 2%nat = Some (x2, y2) ∧
    bbox poly = Ok (x0, y0, x2, y2) ∧
    take 4 poly ≡ₚ corners (x0, y0, x2, y2) ∧
    (∀ p, p ∈ poly ↔ p ∈ corners (x0, y0, x2, y2)) ∧
    Forall (inside (x0, y0, x2, y2)) poly.
Proof.
  intros ([x0 y0] & [bx by_] & [x2 y2] & [dx dy] & Hrows & Hsides).
  exists x0, y0, x2, y2. simpl in Hsides.
  assert (Hperm : [(x0, y0); (bx, by_); (x2, y2); (dx, dy)]
                    ≡ₚ corners (x0, y0, x2, y2)).
  { destruct Hsides as [(<- & -> & <- & ->) | (<- & -> & <- & ->)]; simpl.
    - done.
    - apply perm_skip.
      exact (reverse_Permutation [(x0, y2); (x2, y2); (x2, y0)]). }
  assert (Hfirst : (x0, y0) ∈ corners (x0, y0, x2, y2))
    by (simpl; apply list_elem_of_here).
  assert (Hin : Forall (inside (x0, y0, x2, y2))
                 [(x0, y0); (bx, by_); (x2, y2); (dx, dy)])
    by (rewrite Hperm; apply inside_corners).
  destruct Hrows as [-> | ->].
  - split; [done|]. split; [done|]. split; [done|].
    split; [exact Hperm|]. split; [|exact Hin].
    intros p. by rewrite Hperm.
  - split; [done|]. split; [done|]. split; [done|].
    split; [exact Hperm|]. split.
    + intros p. rewrite <- Hperm.
      change [(x0, y0); (bx, by_); (x2, y2); (dx, dy); (x0, y0)]
        with ([(x0, y0); (bx, by_); (x2, y2); (dx, dy)] ++ [(x0, y0)]).
      rewrite elem_of_app, list_elem_of_singleton. split; [|by left].
      intros [H | ->]; [exact H | apply list_elem_of_here].
    + change [(x0, y0); (bx, by_); (x2, y2); (dx, dy); (x0, y0)]
        with ([(x0, y0); (bx, by_); (x2, y2); (dx, dy)] ++ [(x0, y0)]).
      apply Forall_app. split; [exact Hin|].
      apply Forall_cons. split; [|apply Forall_nil_2].
      apply Forall_cons in Hin. exact (proj1 Hin).
Qed.

Lemma bbox_rectangle_witness :
  let poly := box_polygon (-90.99, -90.85, 32.25, 32.37)%Q in
  geometries (BoxColumns [-90.99] [-90.85] [32.25] [32.37])%Q = [poly] ∧
  length poly = 5%nat ∧
  axis_aligned_rectangle poly ∧
  ∃ x0 y0 x2 y2,
    poly !! 0%nat = Some (x0, y0) ∧ poly !! 2%nat = Some (x2, y2) ∧
    bbox poly = Ok (x0, y0, x2, y2) ∧
    take 4 poly ≡ₚ corners (x0, y0, x2, y2) ∧
    (∀ p, p ∈ poly ↔ p ∈ corners (x0, y0, x2, y2)) ∧
    Forall (inside (x0, y0, x2, y2)) poly.
Proof.
  intros poly.
  assert (H : axis_aligned_rectangle poly) by apply box_polygon_rectangle.
  split; [reflexivity|]. split; [reflexivity|].
  split; [exact H | exact (bbox_rectangle poly H)].
Defined.

(** C3, as stated, fails: a polygon of two vertices has no third one, and
    [xs[2]] raises [IndexError]. *)
Lemma bbox_two_vertices_raises :
  bbox [(0, 0); (1, 1)]%Q = Raise IndexError ∧
  ¬ ∀ poly : polygon, ∃ t, bbox poly = Ok t.
Proof.
  split; [reflexivity|].
  intros H. destruct (H [(0, 0); (1, 1)]%Q) as [t Ht]. discriminate Ht.
Qed.

(** C3, amended. [bbox] succeeds exactly on the polygons with at least three
    vertices, in particular on the four-vertex polygons of the BoxEdit
    stream; on all others it raises [IndexError]. *)
Theorem bbox_succeeds_iff (poly : polygon) :
  ((∃ t, bbox poly = Ok t) ↔ (3 ≤ length poly)%nat) ∧
  (bbox poly = Raise IndexError ↔ (length poly < 3)%nat).
Proof.
  rewrite bbox_lookup.
  destruct poly as [|[x0 y0] [|b [|[x2 y2] poly]]]; simpl;
    (split; split; intros H);
    first [ lia | reflexivity | discriminate H | by destruct H | by eexists ].
Qed.

(** C10. [bbox] reads nothing but the first and the third vertex: polygons
    that agree there get the same result (the same tuple, or the same
    [IndexError] when the vertex is missing in both), whatever their other
    vertices are. *)
Theorem bbox_depends_on_vertices_0_2 (poly1 poly2 : polygon) :
  poly1 !! 0%nat = poly2 !! 0%nat →
  poly1 !! 2%nat = poly2 !! 2%nat →
  bbox poly1 = bbox poly2.
Proof.
  intros H0 H2. rewrite !bbox_lookup.
  unfold polygon, point in *. rewrite H0, H2. reflexivity.
Qed.

Lemma bbox_depends_on_vertices_0_2_witness :
  bbox [(0, 0); (0, 2); (3, 2); (3, 0)]%Q
  = bbox [(0, 0); (7, 8); (3, 2); (9, 9); (5, 5)]%Q.
Proof.
  apply bbox_depends_on_vertices_0_2; reflexivity.
Defined.

(** ** Running the configuration *)

Lemma run_all_cons (c : M unit) (cs : list (M unit)) w :
  run_all (c :: cs) w =
    match c w with
    | (Ok _, w') => run_all cs w'
    | (Raise e, w') => (Raise e, w')
    end.
Proof. reflexivity. Qed.

Lemma run_result (m : M unit) w : (m w).1 = Ok () → m w = (Ok (), (m w).2).
Proof. destruct (m w) as [[[]|e] w']; simpl; congruence. Qed.

Lemma from_shapefile_found p w shapes :
  fs w !! p = Some (File shapes) → from_shapefile p w = (Ok shapes, w).
Proof. unfold from_shapefile, mbind, M_bind, get. by intros ->. Qed.

(** [cell_mask], once the shapefile is there with a first shape. *)
Lemma cell_mask_found w first rest :
  fs w !! shapefile = Some (File (first :: rest)) →
  cell_mask w =
    (assign "shapefile" (VStr shapefile);;
     assign "mask_shape" (VArray first);;
     mask_poly ← new (OElement (gv_Polygons [first]));
     assign "mask_poly" mask_poly;;
     vertex_stream ← new_stream PolyEdit mask_poly None false;
     assign "vertex_stream" vertex_stream;;
     overlay ["mask_poly"]) w.
Proof.
  intros H. unfold cell_mask.
  unfold mbind at 1 4. unfold M_bind at 1 4. unfold assign at 1 4.
  unfold mbind at 1. unfold M_bind at 1.
  rewrite (from_shapefile_found shapefile _ (first :: rest)) by exact H.
  reflexivity.
Qed.

(** Evaluate the cell the run has reached, and step over it. *)
Ltac eval_cell :=
  match goal with
  | |- context [match ?c ?w with (_, _) => _ end] =>
      let r := fresh "r" in
      set (r := c w); vm_compute in r; subst r; cbv beta iota
  end.

Ltac run_cell := rewrite run_all_cons; eval_cell.

(** The configuration runs through whenever the shapefile holds a shape,
    and builds [configured_heap]; it leaves the files alone and [new_polys]
    names the element at 12. *)
Lemma configuration_runs rand f first rest :
  f !! shapefile = Some (File (first :: rest)) →
  ∃ w, run_all (configuration rand) (fresh_kernel f) = (Ok (), w) ∧
       heap w = configured_heap rand first ∧
       fs w = f ∧
       globals w !! "new_polys" = Some (VRef 12).
Proof.
  intros H. unfold configuration.
  do 3 run_cell.
  rewrite run_all_cons, (cell_mask_found _ first rest) by exact H.
  eval_cell.
  do 3 run_cell.
  eexists. split; [reflexivity|]. split; [|split]; vm_compute; reflexivity.
Qed.

(** ** The object limit of the drawing tools *)

Section Eviction.
Context {A : Type}.
Implicit Types (objs : list A) (g : gesture A) (gs : list (gesture A)).

Lemma evict_length n objs :
  (length objs ≤ S n)%nat → (length (evict (Some n) objs) ≤ n)%nat.
Proof.
  intros H. unfold evict.
  destruct (Nat.ltb_spec n (length objs)); [|done].
  destruct objs; simpl in *; lia.
Qed.

Lemma delete_length_le objs : ∀ i, (length (delete i objs) ≤ length objs)%nat.
Proof.
  induction objs as [|o objs IH]; intros [|i]; simpl; try lia.
  specialize (IH i). lia.
Qed.

Lemma draw_length n objs g :
  (length objs ≤ n)%nat → (length (draw (Some n) objs g) ≤ n)%nat.
Proof.
  intros H. destruct g as [o|i o|i]; simpl.
  - apply evict_length. rewrite length_app. simpl. lia.
  - by rewrite length_insert.
  - pose proof (delete_length_le objs i). lia.
Qed.

Lemma mirror_length n gs : ∀ objs,
  (length objs ≤ n)%nat → (length (mirror (Some n) objs gs) ≤ n)%nat.
Proof.
  unfold mirror.
  induction gs as [|g gs IH]; intros objs H; simpl; [done|].
  apply IH, draw_length, H.
Qed.

(** Adding to a full canvas drops the oldest object and keeps the rest in
    their order, the new object last. *)
Lemma draw_full n objs o :
  (0 < n)%nat → length objs = n →
  draw (Some n) objs (Add o) = tail objs ++ [o].
Proof.
  intros Hn Hlen. simpl. unfold evict. rewrite length_app. simpl.
  destruct (Nat.ltb_spec n (length objs + 1)); [|lia].
  destruct objs; simpl in *; [lia | done].
Qed.
End Eviction.

Lemma limited_streams_configured rand first :
  limited_streams (configured_heap rand first) =
    [ (PointDraw, 10%nat, geoms (gv_Points (scale 10 (random_rand rand 10))));
      (BoxEdit, 3%nat, [bounds_outline (-90.99, 32.25, -90.85, 32.37)%Q]);
      (FreehandDraw, 3%nat, [[(0, 52); (-74, 43)]%Q]) ].
Proof. reflexivity. Qed.

(** C2. The streams built with [num_objects] are the point stream (limit
    10), the box stream (limit 3) and the freehand stream (limit 3).  For
    each of them the canvas starts within the limit, stays within it
    whatever is drawn, moved or deleted, and a new object drawn on a full
    canvas replaces the oldest one. *)
Theorem num_objects_never_exceeded rand f first rest w :
  f !! shapefile = Some (File (first :: rest)) →
  run_all (configuration rand) (fresh_kernel f) = (Ok (), w) →
  (fun t => t.1) <$> limited_streams (heap w)
    = [(PointDraw, 10%nat); (BoxEdit, 3%nat); (FreehandDraw, 3%nat)] ∧
  Forall (fun '(_, n, canvas) =>
            ∀ gs : list (gesture polygon),
              let objs := mirror (Some n) canvas gs in
              (length objs ≤ n)%nat ∧
              ∀ o, length objs = n →
                   draw (Some n) objs (Add o) = tail objs ++ [o])
    (limited_streams (heap w)).
Proof.
  intros Hf Hrun.
  destruct (configuration_runs rand f first rest Hf) as (w' & Hrun' & Hheap & _).
  rewrite Hrun in Hrun'. injection Hrun' as <-.
  rewrite Hheap, limited_streams_configured.
  split; [reflexivity|].
  repeat first [apply Forall_nil_2 | apply Forall_cons_2];
    intros gs objs; (split; [apply mirror_length; simpl; lia |]);
    intros o Hlen; (apply draw_full; [lia | exact Hlen]).
Qed.

Lemma num_objects_never_exceeded_witness :
  (fun t => t.1) <$> limited_streams (heap configured_kernel)
    = [(PointDraw, 10%nat); (BoxEdit, 3%nat); (FreehandDraw, 3%nat)] ∧
  Forall (fun '(_, n, canvas) =>
            ∀ gs : list (gesture polygon),
              let objs := mirror (Some n) canvas gs in
              (length objs ≤ n)%nat ∧
              ∀ o, length objs = n →
                   draw (Some n) objs (Add o) = tail objs ++ [o])
    (limited_streams (heap configured_kernel)).
Proof.
  apply (num_objects_never_exceeded sample_rand sample_files
           [(0, 0); (4, 0); (4, 3)]%Q []).
  - vm_compute. reflexivity.
  - apply run_result. vm_compute. reflexivity.
Defined.

(** ** The stream bindings *)

(** C5, as stated, fails: the configuration uses five kinds of stream, and
    the element [new_polys] of the last section is the source of two
    streams. *)
Lemma five_kinds_and_a_shared_source :
  adapter_kinds (heap configured_kernel)
    = [PointDraw; BoxEdit; FreehandDraw; PolyDraw; PolyEdit] ∧
  kind <$> adapters_of (heap configured_kernel) 12 = [PolyDraw; PolyEdit] ∧
  length (adapter_kinds (heap configured_kernel)) ≠ 4%nat ∧
  ¬ ∀ l, (length (adapters_of (heap configured_kernel) l) ≤ 1)%nat.
Proof.
  split; [vm_compute; reflexivity|]. split; [vm_compute; reflexivity|].
  split.
  - intros H. vm_compute in H. discriminate H.
  - intros H. specialize (H 12%nat). vm_compute in H. lia.
Qed.

Lemma adapters_of_configured rand first l :
  (length (adapters_of (configured_heap rand first) l) ≤ 1)%nat ∨
  (l = 12%nat ∧
   kind <$> adapters_of (configured_heap rand first) l = [PolyDraw; PolyEdit]).
Proof.
  do 12 (destruct l as [|l]; [left; vm_compute; lia|]).
  destruct l as [|l]; [right; split; reflexivity|].
  left. vm_compute. lia.
Qed.

(** C5, amended. The configuration uses five kinds of stream: [PointDraw],
    [BoxEdit], [PolyEdit], [FreehandDraw] and [PolyDraw].  Every stream has
    one source, which is an element.  An element is the source of at most
    one stream, except [new_polys] of the last section, which is the source
    of a [PolyDraw] and of a [PolyEdit] stream. *)
Theorem stream_bindings rand f first rest w :
  f !! shapefile = Some (File (first :: rest)) →
  run_all (configuration rand) (fresh_kernel f) = (Ok (), w) →
  adapter_kinds (heap w)
    ≡ₚ [PointDraw; BoxEdit; PolyEdit; FreehandDraw; PolyDraw] ∧
  Forall (fun s => is_wrapper (heap w) (source s) = true) (streams (heap w)) ∧
  ∀ l, (length (adapters_of (heap w) l) ≤ 1)%nat ∨
       (globals w !! "new_polys" = Some (VRef l) ∧
        kind <$> adapters_of (heap w) l = [PolyDraw; PolyEdit]).
Proof.
  intros Hf Hrun.
  destruct (configuration_runs rand f first rest Hf)
    as (w' & Hrun' & Hheap & _ & Hname).
  rewrite Hrun in Hrun'. injection Hrun' as <-. rewrite Hheap.
  split; [|split].
  - change (adapter_kinds (configured_heap rand first))
      with [PointDraw; BoxEdit; FreehandDraw; PolyDraw; PolyEdit].
    do 2 apply perm_skip.
    change ([FreehandDraw; PolyDraw; PolyEdit]
              ≡ₚ [PolyEdit] ++ [FreehandDraw; PolyDraw]).
    apply (Permutation_app_comm [FreehandDraw; PolyDraw] [PolyEdit]).
  - repeat first [apply Forall_nil_2 | apply Forall_cons_2]; reflexivity.
  - intros l. destruct (adapters_of_configured rand first l) as [H|[-> H]];
      [by left | right; by split].
Qed.

Lemma stream_bindings_witness :
  adapter_kinds (heap configured_kernel)
    ≡ₚ [PointDraw; BoxEdit; PolyEdit; FreehandDraw; PolyDraw] ∧
  Forall (fun s => is_wrapper (heap configured_kernel) (source s) = true)
    (streams (heap configured_kernel)) ∧
  ∀ l, (length (adapters_of (heap configured_kernel) l) ≤ 1)%nat ∨
       (globals configured_kernel !! "new_polys" = Some (VRef l) ∧
        kind <$> adapters_of (heap configured_kernel) l = [PolyDraw; PolyEdit]).
Proof.
  apply (stream_bindings sample_rand sample_files
           [(0, 0); (4, 0); (4, 3)]%Q []).
  - vm_compute. reflexivity.
  - apply run_result. vm_compute. reflexivity.
Defined.

(** ** Frame rules for the cell monad *)

Section Preserves.
Context (R : relation world) `{!PreOrder R}.

Lemma preserves_ret {A} (a : A) : preserves R (mret a).
Proof. intros w. simpl. reflexivity. Qed.

Lemma preserves_raise {A} e : preserves R (raise (A := A) e).
Proof. intros w. simpl. reflexivity. Qed.

Lemma preserves_get : preserves R get.
Proof. intros w. simpl. reflexivity. Qed.

Lemma preserves_lift {A} (r : result A) : preserves R (lift r).
Proof. intros w. simpl. reflexivity. Qed.

Lemma preserves_bind {A B} (m : M A) (k : A → M B) :
  preserves R m → (∀ a, preserves R (k a)) → preserves R (m ≫= k).
Proof.
  intros Hm Hk w. unfold mbind, M_bind.
  specialize (Hm w). destruct (m w) as [[a|e] w1]; simpl in *; [|done].
  etransitivity; [exact Hm | apply Hk].
Qed.

Lemma preserves_tolerate_existing m :
  preserves R m → preserves R (tolerate_existing m).
Proof.
  intros Hm w. unfold tolerate_existing. specialize (Hm w).
  destruct (m w) as [[a|[]] w1]; exact Hm.
Qed.

End Preserves.

Ltac frame_step side :=
  lazymatch goal with
  | |- preserves ?R (mret _) => apply (preserves_ret R)
  | |- preserves ?R (raise _) => apply (preserves_raise R)
  | |- preserves ?R get => apply (preserves_get R)
  | |- preserves ?R (lift _) => apply (preserves_lift R)
  | |- preserves ?R (tolerate_existing _) =>
      apply (preserves_tolerate_existing R)
  | |- preserves ?R (mbind _ _) => apply (preserves_bind R); [|intros ?]
  | |- preserves _ (match ?x with _ => _ end) => destruct x
  | |- preserves _ _ => side
  end.

#[global] Instance same_objects_preorder : PreOrder same_objects.
Proof.
  split.
  - intros w. split; [done|]. by apply Forall_true.
  - intros w1 w2 w3 [Hh12 Hn12] [Hh23 Hn23]. split; [congruence|].
    rewrite Forall_forall in *. intros n Hn.
    rewrite (Hn23 n Hn). by apply Hn12.
Qed.

#[global] Instance unchanged_preorder : PreOrder unchanged.
Proof.
  split; [done|]. intros w1 w2 w3 H12 H23. unfold unchanged in *. congruence.
Qed.

Lemma same_objects_assign n v :
  n ∉ configured_names → preserves same_objects (assign n v).
Proof.
  intros Hn w. split; [done|]. simpl.
  apply Forall_forall. intros m Hm. apply lookup_insert_ne. by intros ->.
Qed.

Lemma same_objects_except_heap_globals {A} (m : M A) :
  (∀ w, heap (m w).2 = heap w ∧ globals (m w).2 = globals w) →
  preserves same_objects m.
Proof.
  intros H w. destruct (H w) as [Hh Hg]. split; [done|].
  rewrite Hg. by apply Forall_true.
Qed.

Lemma same_objects_display v : preserves same_objects (display v).
Proof. by apply same_objects_except_heap_globals. Qed.

Lemma same_objects_print v : preserves same_objects (print v).
Proof. by apply same_objects_except_heap_globals. Qed.

Lemma same_objects_os_mkdir p : preserves same_objects (os_mkdir p).
Proof.
  apply same_objects_except_heap_globals. intros w. unfold os_mkdir.
  destruct p as [|c p]; [done|].
  destruct (path_exists _ _); [done|].
  destruct (dirname _); [done|].
  destruct (path_isdir _ _); [done|].
  by destruct (path_exists _ _).
Qed.

Lemma same_objects_write_shapefile d p :
  preserves same_objects (write_shapefile d p).
Proof.
  apply same_objects_except_heap_globals. intros w. unfold write_shapefile.
  by destruct (path_isdir _ _).
Qed.

Ltac same_objects_side :=
  idtac;
  lazymatch goal with
  | |- preserves _ (display _) => apply same_objects_display
  | |- preserves _ (print _) => apply same_objects_print
  | |- preserves _ (os_mkdir _) => apply same_objects_os_mkdir
  | |- preserves _ (write_shapefile _ _) => apply same_objects_write_shapefile
  | |- preserves _ (assign _ _) =>
      apply same_objects_assign;
      rewrite list_elem_of_In; simpl; intuition discriminate
  end.

Ltac frame_same_objects := repeat frame_step same_objects_side.

Lemma same_objects_makedirs_rev rname :
  preserves same_objects (makedirs_rev rname).
Proof.
  induction rname as [|c r IH]; simpl; [frame_same_objects|].
  destruct r; unfold os_path_exists; frame_same_objects. exact IH.
Qed.

(** C6. Every cell that reads the streams back (showing the point stream's
    dataframe, extracting the bounding boxes, saving the edited shape,
    showing a stream's [data] or [element]) leaves the heap as it is (the
    streams, the data they mirror and the source elements) and does not
    rebind any name of the configuration.  This holds from every world,
    whether the cell returns or raises. *)
Theorem post_edit_cells_only_read :
  Forall (preserves same_objects) post_edit.
Proof.
  unfold post_edit.
  repeat first [apply Forall_nil_2 | apply Forall_cons_2];
    unfold cell_show_points, cell_show_boxes, cell_save,
      cell_show_element_data, cell_show_geom, cell_show_poly_data,
      cell_show_poly_element, show_mask, if_data, if_element,
      prepare_directory,
      save_and_reload, save_shapefile, from_shapefile, opts, the_path,
      stream_data, stream_element, the_stream, the_element, name,
      os_path_isdir, os_makedirs, last_expression;
    frame_same_objects; apply same_objects_makedirs_rev.
Qed.

(** ** Cells that find no data *)

Lemma if_data_unchanged n : preserves unchanged (if_data n).
Proof.
  unfold if_data, stream_data, the_stream, name.
  repeat frame_step idtac.
Qed.

Lemma if_element_unchanged n : preserves unchanged (if_element n).
Proof.
  unfold if_element, stream_element, the_stream, the_element, name.
  repeat frame_step idtac.
Qed.

(** A test reads one name and the heap, nothing else. *)
Lemma if_data_reads n w w' :
  heap w' = heap w → globals w' !! n = globals w !! n →
  (if_data n w').1 = (if_data n w).1.
Proof.
  intros Hh Hg.
  unfold if_data, stream_data, the_stream, name, mbind, M_bind, get.
  simpl. rewrite Hg.
  destruct (globals w !! n) as [[]|]; simpl; try done.
  rewrite Hh. destruct (heap w !! l) as [[]|]; simpl; done.
Qed.

Lemma if_element_reads n w w' :
  heap w' = heap w → globals w' !! n = globals w !! n →
  (if_element n w').1 = (if_element n w).1.
Proof.
  intros Hh Hg.
  unfold if_element, stream_element, the_stream, the_element, name,
    mbind, M_bind, get.
  simpl. rewrite Hg.
  destruct (globals w !! n) as [[]|]; simpl; try done.
  rewrite Hh. destruct (heap w !! l) as [[|s]|]; simpl; try done.
  rewrite Hh. destruct (heap w !! source s) as [[]|]; simpl; done.
Qed.

Lemma test_false (g : M bool) w :
  preserves unchanged g → (g w).1 = Ok false → g w = (Ok false, w).
Proof.
  intros Hg H. specialize (Hg w). unfold unchanged in Hg.
  destruct (g w) as [r w1]. simpl in *. by subst.
Qed.

Lemma test_true (g : M bool) w :
  preserves unchanged g → (g w).1 = Ok true → g w = (Ok true, w).
Proof.
  intros Hg H. specialize (Hg w). unfold unchanged in Hg.
  destruct (g w) as [r w1]. simpl in *. by subst.
Qed.

Lemma bind_run {A B} (m : M A) (k : A → M B) w a w1 :
  m w = (Ok a, w1) → (m ≫= k) w = k a w1.
Proof. unfold mbind, M_bind. by intros ->. Qed.

Lemma cell_show_points_no_data w :
  (if_data "point_stream" w).1 = Ok false → cell_show_points w = (Ok (), w).
Proof.
  intros H. unfold cell_show_points.
  rewrite (bind_run _ _ w false w); [done|].
  by apply test_false; [apply if_data_unchanged|].
Qed.

Lemma cell_show_boxes_no_data w :
  (if_element "box_stream" w).1 = Ok false →
  cell_show_boxes w =
    (Ok (), set_globals (<["bbox" := VFunction "bbox"]> (globals w)) w).
Proof.
  intros H. unfold cell_show_boxes.
  set (w0 := set_globals (<["bbox" := VFunction "bbox"]> (globals w)) w).
  rewrite (bind_run _ _ w () w0); [|done].
  rewrite (bind_run _ _ w0 false w0); [done|].
  apply test_false; [apply if_element_unchanged|].
  rewrite <- H. apply if_element_reads; [done|].
  simpl. by apply lookup_insert_ne.
Qed.

Lemma cell_save_no_data w :
  (if_data "vertex_stream" w).1 = Ok false →
  let w' := (cell_save w).2 in
  fs w' = fs w ∧ heap w' = heap w ∧
  globals w' !! "mask_shape" = globals w !! "mask_shape" ∧
  (out w' = out w ∨
   ∃ v, globals w !! "mask_shape" = Some v ∧ out w' = out w ++ [Display v]).
Proof.
  intros H. unfold cell_save.
  set (w0 := set_globals
               (<["save_shapefile" := VFunction "save_shapefile"]> (globals w))
               w).
  rewrite (bind_run _ _ w () w0); [|done].
  rewrite (bind_run _ _ w0 false w0).
  2:{ apply test_false; [apply if_data_unchanged|].
      rewrite <- H. apply if_data_reads; [done|].
      simpl. by apply lookup_insert_ne. }
  rewrite (bind_run _ _ w0 () w0); [|done].
  assert (Hm : globals w0 !! "mask_shape" = globals w !! "mask_shape")
    by (simpl; by apply lookup_insert_ne).
  unfold show_mask, name, opts, the_element, last_expression, mbind, M_bind,
    get.
  simpl. rewrite lookup_insert_ne by done.
  destruct (globals w !! "mask_shape") as [v|] eqn:Hv; simpl; [|by auto].
  destruct v; simpl; auto;
    try (rewrite lookup_insert_eq; by eauto 10).
  destruct (heap w !! l) as [[]|]; simpl; auto.
  rewrite lookup_insert_eq; by eauto 10.
Qed.

(** C8, as stated, fails in two ways.  The cell of the point stream tests
    [point_stream.data], and a dictionary of empty columns is true: with
    every point removed the stream's element is empty, yet the cell shows a
    dataframe.  And lines 202-203 of the shapefile cell run whether or not
    there is data: after an edit has been saved and [vertex_stream] has
    been bound to a new stream, the cell finds no data, yet it shows
    [mask_shape], which holds the edited shape and not the original one. *)
Lemma post_edit_cells_show_without_data :
  ((if_element "point_stream" cleared_kernel).1 = Ok false ∧
   out (cell_show_points cleared_kernel).2
     = out cleared_kernel ++ [Display (VFrame [])]) ∧
  (if_data "vertex_stream" redrawn_kernel).1 = Ok false ∧
  out (cell_save redrawn_kernel).2
    = out redrawn_kernel
      ++ [Display (VShapes [[(0, 0); (4, 0); (4, 3); (1, 2)]%Q])] ∧
  globals (cell_save redrawn_kernel).2 !! "mask_shape"
    = Some (VShapes [[(0, 0); (4, 0); (4, 3); (1, 2)]%Q]).
Proof.
  apply conj; [apply conj; vm_compute; reflexivity|].
  do 2 (apply conj; [vm_compute; reflexivity|]). vm_compute. reflexivity.
Qed.

(** C8, amended. When the test that a post-edit cell itself makes is false
    ([point_stream.data], [box_stream.element], [vertex_stream.data]), no
    dataframe is shown, no list of boxes is printed and no shapefile is
    written: the cell of the point stream leaves the world as it is, the
    cell of the box stream only defines [bbox], and the shapefile cell
    leaves the files as they are and [mask_shape] bound to what it was
    bound to before the cell; all it may show is that [mask_shape]. *)
Theorem no_data_no_effect w :
  ((if_data "point_stream" w).1 = Ok false →
   cell_show_points w = (Ok (), w)) ∧
  ((if_element "box_stream" w).1 = Ok false →
   cell_show_boxes w =
     (Ok (), set_globals (<["bbox" := VFunction "bbox"]> (globals w)) w)) ∧
  ((if_data "vertex_stream" w).1 = Ok false →
   let w' := (cell_save w).2 in
   fs w' = fs w ∧ heap w' = heap w ∧
   globals w' !! "mask_shape" = globals w !! "mask_shape" ∧
   (out w' = out w ∨
    ∃ v, globals w !! "mask_shape" = Some v ∧ out w' = out w ++ [Display v])).
Proof.
  split; [|split].
  - apply cell_show_points_no_data.
  - apply cell_show_boxes_no_data.
  - apply cell_save_no_data.
Qed.

Lemma no_data_no_effect_witness :
  let w := configured_kernel in
  cell_show_points w = (Ok (), w) ∧
  cell_show_boxes w =
    (Ok (), set_globals (<["bbox" := VFunction "bbox"]> (globals w)) w) ∧
  fs (cell_save w).2 = fs w ∧
  globals (cell_save w).2 !! "mask_shape" = globals w !! "mask_shape".
Proof.
  intros w. destruct (no_data_no_effect w) as (Hpoints & Hboxes & Hsave).
  split; [apply Hpoints; vm_compute; reflexivity|].
  split; [apply Hboxes; vm_compute; reflexivity|].
  destruct Hsave as (Hfs & _ & Hmask & _); [vm_compute; reflexivity|].
  split; [exact Hfs | exact Hmask].
Defined.

(** ** The output directory *)

Lemma bind_inv {A B} (m : M A) (k : A → M B) w b w2 :
  (m ≫= k) w = (Ok b, w2) →
  ∃ a w1, m w = (Ok a, w1) ∧ k a w1 = (Ok b, w2).
Proof.
  unfold mbind, M_bind. destruct (m w) as [[a|e] w1]; [eauto | discriminate].
Qed.

Lemma os_mkdir_isdir p w u w1 :
  os_mkdir p w = (Ok u, w1) → path_isdir (fs w1) p = true.
Proof.
  unfold os_mkdir. intros H.
  assert (H' : w1 = set_fs (<[p := Dir]> (fs w)) w).
  { destruct p as [|c p]; [discriminate|].
    destruct (path_exists _ _); [discriminate|].
    destruct (dirname _); [congruence|].
    destruct (path_isdir _ _); [congruence|].
    destruct (path_exists _ _); discriminate. }
  subst w1. unfold path_isdir. simpl. by rewrite lookup_insert_eq.
Qed.

Lemma os_makedirs_isdir p w u w1 :
  last p ≠ Some "." →
  os_makedirs p w = (Ok u, w1) → path_isdir (fs w1) p = true.
Proof.
  unfold os_makedirs. intros Hlast H.
  destruct (rev p) as [|c r] eqn:Hrev; [discriminate|].
  assert (Hp : p = rev (c :: r)) by (by rewrite <- Hrev, rev_involutive).
  assert (Hc : c ≠ ".").
  { intros ->. apply Hlast. rewrite Hp. simpl. apply last_snoc. }
  simpl in H. rewrite Hp. simpl.
  destruct r as [|c' r]; [by eapply os_mkdir_isdir|].
  apply bind_inv in H as (found & w' & _ & H).
  destruct found; [by eapply os_mkdir_isdir|].
  apply bind_inv in H as (_ & w'' & _ & H).
  rewrite bool_decide_false in H by done.
  by eapply os_mkdir_isdir.
Qed.

Lemma os_mkdir_raises p w e w1 : os_mkdir p w = (Raise e, w1) → w1 = w.
Proof.
  unfold os_mkdir. destruct p as [|c p]; [congruence|].
  destruct (path_exists _ _); [congruence|].
  destruct (dirname _); [congruence|].
  destruct (path_isdir _ _); [congruence|].
  destruct (path_exists _ _); congruence.
Qed.

Lemma os_mkdir_other p q w : q ≠ p → fs (os_mkdir p w).2 !! q = fs w !! q.
Proof.
  intros Hq. unfold os_mkdir. destruct p as [|c p]; [done|].
  destruct (path_exists _ _); [done|].
  destruct (dirname _); simpl; [by rewrite lookup_insert_ne|].
  destruct (path_isdir _ _); simpl; [by rewrite lookup_insert_ne|].
  by destruct (path_exists _ _).
Qed.

(** [os.makedirs] touches the path it is given and the paths above it,
    nothing longer. *)
Lemma makedirs_rev_longer rname w q :
  (length rname < length q)%nat →
  fs (makedirs_rev rname w).2 !! q = fs w !! q.
Proof.
  revert w. induction rname as [|tail rhead IH]; intros w Hlen.
  - done.
  - assert (Hq : q ≠ rev (tail :: rhead)).
    { intros ->. rewrite length_rev in Hlen. lia. }
    assert (IH' : ∀ w, fs (makedirs_rev rhead w).2 !! q = fs w !! q).
    { intros w'. apply IH. simpl in Hlen. lia. }
    cbn [makedirs_rev]. destruct rhead as [|c rhead'].
    { by apply os_mkdir_other. }
    set (rhead := c :: rhead') in *.
    unfold os_path_exists, tolerate_existing, mbind, M_bind, get, mret, M_ret.
    cbv beta iota.
    destruct (path_exists (fs w) (rev rhead)).
    { by apply os_mkdir_other. }
    specialize (IH' w).
    destruct (makedirs_rev rhead w) as [[u|e] w'] eqn:Hmk; simpl in IH'.
    + destruct (bool_decide (tail = ".")); [exact IH'|].
      rewrite <- IH'. by apply os_mkdir_other.
    + destruct e; try exact IH'.
      destruct (bool_decide (tail = ".")); [exact IH'|].
      rewrite <- IH'. by apply os_mkdir_other.
Qed.

(** When [os.makedirs] raises, the path it was given is as it was. *)
Lemma makedirs_rev_raises rname w e w1 :
  makedirs_rev rname w = (Raise e, w1) →
  fs w1 !! rev rname = fs w !! rev rname.
Proof.
  destruct rname as [|tail rhead]; intros H.
  { cbn [makedirs_rev] in H. apply os_mkdir_raises in H. by subst. }
  assert (Hlen : (length rhead < length (rev (tail :: rhead)))%nat)
    by (rewrite length_rev; simpl; lia).
  pose proof (makedirs_rev_longer rhead w _ Hlen) as Hhead.
  cbn [makedirs_rev] in H. destruct rhead as [|c rhead'].
  { apply os_mkdir_raises in H. by subst. }
  set (rhead := c :: rhead') in *.
  revert H.
  unfold os_path_exists, tolerate_existing, mbind, M_bind, get, mret, M_ret.
  cbv beta iota.
  destruct (path_exists (fs w) (rev rhead)).
  { intros H. apply os_mkdir_raises in H. by subst. }
  destruct (makedirs_rev rhead w) as [[u|e'] w'] eqn:Hmk; simpl in Hhead.
  - destruct (bool_decide (tail = ".")); [discriminate|].
    intros H. apply os_mkdir_raises in H. by subst.
  - destruct e'; try (intros [= <- <-]; exact Hhead).
    destruct (bool_decide (tail = ".")); [discriminate|].
    intros H. apply os_mkdir_raises in H. by subst.
Qed.

(** C9, as stated, fails: with an edited polygon in [vertex_stream] and a
    regular file where the output directory should be, the directory does
    not exist, [os.makedirs] raises [FileExistsError], the directory is not
    created and [save_shapefile] is never called (there is no file to
    read back). *)
Lemma makedirs_blocked_by_file :
  (if_data "vertex_stream" blocked_kernel).1 = Ok true ∧
  path_isdir (fs blocked_kernel) (dirname edited_shape_fname) = false ∧
  (cell_save blocked_kernel).1 = Raise FileExistsError ∧
  path_isdir (fs (cell_save blocked_kernel).2) (dirname edited_shape_fname)
    = false ∧
  fs (cell_save blocked_kernel).2 !! edited_shape_fname = None.
Proof.
  do 4 (apply conj; [vm_compute; reflexivity|]). vm_compute. reflexivity.
Qed.

(** C9, amended. When the shapefile cell runs with data in
    [vertex_stream], lines 197-199 run next.  If the output directory
    exists they leave the files as they are; if it does not,
    [os.makedirs] runs on the unchanged files.  Whenever control reaches
    the call of [save_shapefile], the directory of the file to save
    exists; when [os.makedirs] raises instead, the directory has not been
    created, the cell raises with it and [save_shapefile] is not called:
    the cell ends in the world [os.makedirs] left, with the file to save as
    it was. *)
Theorem directory_prepared w :
  (if_data "vertex_stream" w).1 = Ok true →
  let w0 :=
    set_globals
      (<["save_shapefile" := VFunction "save_shapefile"]> (globals w)) w in
  let dir_name := dirname edited_shape_fname in
  cell_save w =
    ((fname ← prepare_directory; save_and_reload fname);; show_mask) w0 ∧
  (path_isdir (fs w) dir_name = true →
   ∃ w1, prepare_directory w0 = (Ok edited_shape_fname, w1) ∧
         fs w1 = fs w) ∧
  (path_isdir (fs w) dir_name = false →
   ∃ w1, prepare_directory w0
           = (os_makedirs dir_name;; mret edited_shape_fname) w1 ∧
         fs w1 = fs w) ∧
  (∀ fname w1,
     prepare_directory w0 = (Ok fname, w1) →
     fname = edited_shape_fname ∧
     path_isdir (fs w1) (dirname fname) = true) ∧
  (∀ e w1,
     prepare_directory w0 = (Raise e, w1) →
     path_isdir (fs w) dir_name = false ∧
     path_isdir (fs w1) dir_name = false ∧
     cell_save w = (Raise e, w1) ∧
     fs w1 !! edited_shape_fname = fs w !! edited_shape_fname).
Proof.
  intros Hdata w0 dir_name.
  assert (Hcell : cell_save w =
    ((fname ← prepare_directory; save_and_reload fname);; show_mask) w0).
  { unfold cell_save.
    rewrite (bind_run _ _ w () w0); [|done].
    rewrite (bind_run _ _ w0 true w0); [done|].
    apply test_true; [apply if_data_unchanged|].
    rewrite <- Hdata. apply if_data_reads; [done|].
    simpl. by apply lookup_insert_ne. }
  set (w1 := set_globals
               (<["dir_name" := VStr dir_name]>
                  (<["edited_shape_fname" := VStr edited_shape_fname]>
                     (globals w0))) w0).
  assert (Hprep : prepare_directory w0 =
    (if path_isdir (fs w) dir_name then mret edited_shape_fname
     else os_makedirs dir_name;; mret edited_shape_fname) w1).
  { unfold prepare_directory, os_path_isdir, mbind, M_bind, assign, get.
    cbn [fs set_globals mret M_ret]. fold dir_name.
    change (fs w0) with (fs w).
    destruct (path_isdir (fs w) dir_name); reflexivity. }
  split; [exact Hcell|]. split; [|split; [|split]].
  - intros Hdir. exists w1. rewrite Hprep, Hdir. done.
  - intros Hdir. exists w1. rewrite Hprep, Hdir. done.
  - intros fname w2. rewrite Hprep.
    destruct (path_isdir (fs w) dir_name) eqn:Hdir.
    + intros [= <- <-]. done.
    + intros H. apply bind_inv in H as (u & w3 & Hmk & [= <- <-]).
      split; [done|]. eapply os_makedirs_isdir; [|exact Hmk].
      vm_compute. discriminate.
  - intros e w2 H.
    assert (Hraise : cell_save w = (Raise e, w2)).
    { rewrite Hcell.
      unfold mbind at 1. unfold M_bind at 1.
      unfold mbind at 1. unfold M_bind at 1.
      by rewrite H. }
    rewrite Hprep in H.
    destruct (path_isdir (fs w) dir_name) eqn:Hdir; [discriminate|].
    assert (Hmk : os_makedirs dir_name w1 = (Raise e, w2)).
    { revert H. unfold mbind, M_bind.
      destruct (os_makedirs dir_name w1) as [[u|e'] w3]; [discriminate|].
      by intros [= <- <-]. }
    unfold os_makedirs in Hmk.
    split; [done|]. split; [|split; [exact Hraise|]].
    + apply makedirs_rev_raises in Hmk.
      rewrite rev_involutive in Hmk.
      exact (eq_trans
               (f_equal (λ o, match o with Some Dir => true | _ => false end)
                  Hmk) Hdir).
    + pose proof (makedirs_rev_longer (rev dir_name) w1 edited_shape_fname)
        as Hfile.
      rewrite Hmk in Hfile. apply Hfile. vm_compute. lia.
Qed.

Lemma directory_prepared_witness :
  let w := edited_kernel in
  let w0 :=
    set_globals
      (<["save_shapefile" := VFunction "save_shapefile"]> (globals w)) w in
  (if_data "vertex_stream" w).1 = Ok true ∧
  ∀ fname w1,
    prepare_directory w0 = (Ok fname, w1) →
    fname = edited_shape_fname ∧ path_isdir (fs w1) (dirname fname) = true.
Proof.
  intros w w0.
  assert (H : (if_data "vertex_stream" w).1 = Ok true)
    by (vm_compute; reflexivity).
  split; [exact H|].
  exact (proj1 (proj2 (proj2 (proj2 (directory_prepared w H))))).
Defined.

Example cell_save_edited :
  (cell_save edited_kernel).1 = Ok () ∧
  path_isdir (fs (cell_save edited_kernel).2) (dirname edited_shape_fname)
    = true ∧
  globals (cell_save edited_kernel).2 !! "mask_shape"
    = Some (VShapes [[(0, 0); (4, 0); (4, 3); (1, 2)]%Q]).
Proof.
  do 2 (apply conj; [vm_compute; reflexivity|]). vm_compute. reflexivity.
Qed.

(** ** Saving and reading a shapefile *)

(** C4. Once [save_shapefile] has written the data of the PolyEdit stream,
    reading the file back with [gv.Shape.from_shapefile] gives the edited
    polygons, one shape for each; and the writing succeeds whenever the
    template can be read and the directory of the file exists. *)
Theorem shapefile_round_trip w d save_path template_path :
  (∀ w1,
     save_shapefile (Some d) save_path template_path w = (Ok (), w1) →
     from_shapefile save_path w1 = (Ok (geometries d), w1)) ∧
  (∀ schema,
     fs w !! template_path = Some (File schema) →
     path_isdir (fs w) (dirname save_path) = true →
     ∃ w1, save_shapefile (Some d) save_path template_path w = (Ok (), w1)).
Proof.
  unfold save_shapefile, write_shapefile. split.
  - intros w1 H. apply bind_inv in H as (schema & w' & Hread & H).
    destruct (path_isdir (fs w') (dirname save_path)); [|discriminate].
    injection H as <-. apply from_shapefile_found. simpl.
    by rewrite lookup_insert_eq.
  - intros schema Htemplate Hdir.
    rewrite (bind_run _ _ w schema w)
      by exact (from_shapefile_found _ _ schema Htemplate).
    rewrite Hdir. eauto.
Qed.

Lemma shapefile_round_trip_witness :
  let d := PathColumns [[0; 4; 4; 1]%Q] [[0; 0; 3; 2]%Q] in
  let save_path := [".."; "data"; "vicksburg_watershed"; "edited.shp"] in
  ∃ w1,
    save_shapefile (Some d) save_path shapefile edited_kernel = (Ok (), w1) ∧
    from_shapefile save_path w1
      = (Ok [[(0, 0); (4, 0); (4, 3); (1, 2)]%Q], w1).
Proof.
  intros d save_path.
  destruct (shapefile_round_trip edited_kernel d save_path shapefile)
    as [Hread Hwrite].
  destruct (Hwrite [[(0, 0); (4, 0); (4, 3)]%Q]) as [w1 Hw1];
    [vm_compute; reflexivity | vm_compute; reflexivity |].
  exists w1. split; [exact Hw1 | exact (Hread w1 Hw1)].
Defined.

(** * Further properties of the cells *)

(** ** What no cell does *)

Lemma preserves_mapM (R : relation world) `{!PreOrder R} {A B}
    (f : A → M B) (l : list A) :
  (∀ a, preserves R (f a)) → preserves R (mapM f l).
Proof.
  intros Hf. induction l as [|a l IH]; simpl.
  - apply (preserves_ret R).
  - apply (preserves_bind R); [apply Hf|]. intros b.
    apply (preserves_bind R); [apply IH|]. intros bs.
    apply (preserves_ret R).
Qed.

#[global] Instance heap_grows_preorder : PreOrder heap_grows.
Proof.
  split.
  - intros w. unfold heap_grows. done.
  - intros w1 w2 w3 H12 H23. unfold heap_grows in *. by etransitivity.
Qed.

#[global] Instance same_files_preorder : PreOrder same_files.
Proof.
  split; [done|]. intros w1 w2 w3 H12 H23. unfold same_files in *. congruence.
Qed.

Lemma heap_grows_same_heap {A} (m : M A) :
  (∀ w, heap (m w).2 = heap w) → preserves heap_grows m.
Proof. intros H w. unfold heap_grows. by rewrite H. Qed.

Lemma heap_grows_new o : preserves heap_grows (new o).
Proof. intros w. unfold heap_grows. simpl. by apply prefix_app_r. Qed.

Lemma heap_grows_os_mkdir p : preserves heap_grows (os_mkdir p).
Proof.
  apply heap_grows_same_heap. intros w. unfold os_mkdir.
  destruct p as [|c p]; [done|].
  destruct (path_exists _ _); [done|].
  destruct (dirname _); [done|].
  destruct (path_isdir _ _); [done|].
  by destruct (path_exists _ _).
Qed.

Lemma heap_grows_write_shapefile d p :
  preserves heap_grows (write_shapefile d p).
Proof.
  apply heap_grows_same_heap. intros w. unfold write_shapefile.
  by destruct (path_isdir _ _).
Qed.

Ltac heap_grows_side :=
  idtac;
  lazymatch goal with
  | |- preserves _ (new _) => apply heap_grows_new
  | |- preserves _ (os_mkdir _) => apply heap_grows_os_mkdir
  | |- preserves _ (write_shapefile _ _) => apply heap_grows_write_shapefile
  | |- preserves ?R (mapM _ _) => apply (preserves_mapM R); intros ?
  | |- preserves _ (display _) => by apply heap_grows_same_heap
  | |- preserves _ (print _) => by apply heap_grows_same_heap
  | |- preserves _ (assign _ _) => by apply heap_grows_same_heap
  end.

Lemma heap_grows_makedirs_rev rname : preserves heap_grows (makedirs_rev rname).
Proof.
  induction rname as [|c r IH]; simpl; [repeat frame_step heap_grows_side|].
  destruct r; unfold os_path_exists; repeat frame_step heap_grows_side.
  exact IH.
Qed.

Ltac unfold_cells :=
  unfold cell_imports, cell_points, cell_boxes, cell_mask, cell_freehand,
    cell_polys, cell_draw_and_edit, cell_show_points, cell_show_boxes,
    cell_save, cell_show_element_data, cell_show_geom, cell_show_poly_data,
    cell_show_poly_element, show_mask, if_data, if_element,
    prepare_directory, save_and_reload, save_shapefile, from_shapefile, opts,
    the_path, the_dict, overlay, layer, new_stream, stream_data,
    stream_element, the_stream, the_element, name, os_path_isdir,
    os_makedirs, last_expression.

(** X1. No cell of the notebook changes or removes an object that is on the
    heap: elements and streams are only ever added, and what a stream
    mirrors is changed by the front end alone. *)
Theorem cells_only_add_objects rand :
  Forall (preserves heap_grows) (configuration rand ++ post_edit).
Proof.
  unfold configuration, post_edit. simpl app.
  repeat first [apply Forall_nil_2 | apply Forall_cons_2];
    unfold_cells; repeat frame_step heap_grows_side;
    apply heap_grows_makedirs_rev.
Qed.

Lemma same_files_same_fs {A} (m : M A) :
  (∀ w, fs (m w).2 = fs w) → preserves same_files m.
Proof. intros H w. apply H. Qed.

Ltac same_files_side :=
  idtac;
  lazymatch goal with
  | |- preserves ?R (mapM _ _) => apply (preserves_mapM R); intros ?
  | |- preserves _ (new _) => by apply same_files_same_fs
  | |- preserves _ (display _) => by apply same_files_same_fs
  | |- preserves _ (print _) => by apply same_files_same_fs
  | |- preserves _ (assign _ _) => by apply same_files_same_fs
  end.

(** X2. The shapefile cell is the only cell that writes: every other cell
    leaves the file system as it is, from every world and whether it
    returns or raises. *)
Theorem only_the_shapefile_cell_writes rand :
  Forall (fun c => c = cell_save ∨ preserves same_files c)
    (configuration rand ++ post_edit).
Proof.
  unfold configuration, post_edit. simpl app.
  repeat first [apply Forall_nil_2 | apply Forall_cons_2];
    first [ by left
          | right; unfold_cells; by repeat frame_step same_files_side ].
Qed.

(** ** The output directory, continued *)

#[global] Instance files_kept_preorder : PreOrder files_kept.
Proof.
  split.
  - intros w p. by left.
  - intros w1 w2 w3 H12 H23 p.
    destruct (H12 p) as [E12|[N1 D2]], (H23 p) as [E23|[N2 D3]].
    + left. congruence.
    + right. split; congruence.
    + right. split; congruence.
    + congruence.
Qed.

Lemma files_kept_same_fs {A} (m : M A) :
  (∀ w, fs (m w).2 = fs w) → preserves files_kept m.
Proof. intros H w p. left. by rewrite H. Qed.

Lemma files_kept_os_mkdir p : preserves files_kept (os_mkdir p).
Proof.
  intros w q. unfold os_mkdir.
  destruct p as [|c p]; [by left|].
  destruct (path_exists (fs w) (c :: p)) eqn:Hex; [by left|].
  assert (Hnone : fs w !! (c :: p) = None).
  { unfold path_exists in Hex. apply bool_decide_eq_false in Hex.
    by apply eq_None_not_Some. }
  assert (Hins : fs (set_fs (<[c :: p := Dir]> (fs w)) w) !! q = fs w !! q ∨
                 fs w !! q = None ∧
                 fs (set_fs (<[c :: p := Dir]> (fs w)) w) !! q = Some Dir).
  { simpl. destruct (decide (c :: p = q)) as [<-|Hne].
    - right. by rewrite lookup_insert_eq.
    - left. by rewrite lookup_insert_ne. }
  destruct (dirname (c :: p)) as [|c' d]; [exact Hins|].
  destruct (path_isdir _ _); [exact Hins|].
  destruct (path_exists (fs w) (c' :: d)); simpl; by left.
Qed.

Ltac files_kept_side :=
  idtac;
  lazymatch goal with
  | |- preserves _ (os_mkdir _) => apply files_kept_os_mkdir
  | |- preserves _ (assign _ _) => by apply files_kept_same_fs
  end.

Lemma files_kept_makedirs_rev rname : preserves files_kept (makedirs_rev rname).
Proof.
  induction rname as [|c r IH]; simpl; [repeat frame_step files_kept_side|].
  destruct r; unfold os_path_exists; repeat frame_step files_kept_side.
  exact IH.
Qed.

(** X3. Lines 197-199 never overwrite or remove anything: whatever file or
    directory exists stays as it is, and every entry they add is a
    directory.  This holds whether [os.makedirs] succeeds or raises part of
    the way. *)
Theorem prepare_directory_keeps_files w p :
  let w1 := (prepare_directory w).2 in
  fs w1 !! p = fs w !! p ∨ (fs w !! p = None ∧ fs w1 !! p = Some Dir).
Proof.
  assert (H : preserves files_kept prepare_directory).
  { unfold prepare_directory, os_path_isdir, os_makedirs.
    repeat frame_step files_kept_side. apply files_kept_makedirs_rev. }
  exact (H w p).
Qed.

(** X4. Lines 197-199 can be run again: once they have succeeded, a second
    run succeeds as well and leaves the file system as the first run left
    it. *)
Theorem prepare_directory_again w fname w1 :
  prepare_directory w = (Ok fname, w1) →
  ∃ w2, prepare_directory w1 = (Ok fname, w2) ∧ fs w2 = fs w1.
Proof.
  intros H.
  assert (Hdir : fname = edited_shape_fname ∧
                 path_isdir (fs w1) (dirname edited_shape_fname) = true).
  { revert H.
    unfold prepare_directory, os_path_isdir, mbind, M_bind, assign, get.
    cbn [fs set_globals mret M_ret negb].
    destruct (path_isdir (fs w) (dirname edited_shape_fname)) eqn:Hd; simpl.
    - intros [= <- <-]. done.
    - destruct (os_makedirs _ _) as [[u|e] w'] eqn:Hmk; [|discriminate].
      intros [= <- <-]. split; [done|].
      eapply os_makedirs_isdir; [|exact Hmk]. vm_compute. discriminate. }
  destruct Hdir as [-> Hdir].
  unfold prepare_directory, os_path_isdir, mbind, M_bind, assign, get.
  cbn [fs set_globals mret M_ret]. rewrite Hdir. simpl. eauto.
Qed.

Lemma prepare_directory_again_witness :
  ∃ w1 w2,
    prepare_directory edited_kernel = (Ok edited_shape_fname, w1) ∧
    prepare_directory w1 = (Ok edited_shape_fname, w2) ∧
    fs w2 = fs w1.
Proof.
  assert (H1 : (prepare_directory edited_kernel).1 = Ok edited_shape_fname)
    by (vm_compute; reflexivity).
  destruct (prepare_directory edited_kernel) as [r w1] eqn:E.
  simpl in H1. subst r.
  destruct (prepare_directory_again _ _ _ E) as (w2 & H2 & Hfs).
  exists w1, w2. split; [reflexivity|]. split; [exact H2 | exact Hfs].
Defined.

(** ** The list of bounding boxes *)

Lemma mapM_bbox_cons p polys :
  mapM bbox (p :: polys) =
    match bbox p with
    | Ok t => match mapM bbox polys with
              | Ok ts => Ok (t :: ts)
              | Raise e => Raise e
              end
    | Raise e => Raise e
    end.
Proof.
  simpl. destruct (bbox p); [|done]. simpl. by destruct (mapM bbox polys).
Qed.

Lemma bbox_raises p e :
  bbox p = Raise e → e = IndexError ∧ (length p < 3)%nat.
Proof.
  rewrite bbox_lookup.
  destruct p as [|[x0 y0] [|b [|[x2 y2] p]]]; simpl;
    intros [= <-] || discriminate; split; (done || lia).
Qed.

Lemma bbox_short p : (length p < 3)%nat → bbox p = Raise IndexError.
Proof.
  rewrite bbox_lookup.
  destruct p as [|[x0 y0] [|b [|[x2 y2] p]]]; simpl; intros H;
    (reflexivity || lia).
Qed.

(** X5. The comprehension [[bbox(p) for p in polygons]] of line 136 gives
    one tuple for each polygon, in the order of the polygons, each the
    [bbox] of its polygon; it raises exactly when some polygon has fewer
    than three vertices, and what it raises then is [IndexError]. *)
Theorem bboxes_of_polygons (polys : list polygon) :
  (∀ ts, mapM bbox polys = Ok ts ↔
         Forall2 (fun p t => bbox p = Ok t) polys ts) ∧
  ((∃ e, mapM bbox polys = Raise e) ↔
   Exists (fun p => (length p < 3)%nat) polys) ∧
  (∀ e, mapM bbox polys = Raise e → e = IndexError).
Proof.
  induction polys as [|p polys (IHok & IHraise & IHexn)].
  - split; [|split].
    + intros ts. simpl. split.
      * intros [= <-]. constructor.
      * intros H. by inversion H.
    + split; [intros [e H]; discriminate | intros H; inversion H].
    + intros e H. discriminate.
  - rewrite mapM_bbox_cons. split; [|split].
    + intros ts. split.
      * destruct (bbox p) as [t|e] eqn:Hp; [|discriminate].
        destruct (mapM bbox polys) as [ts'|e] eqn:Hps; [|discriminate].
        intros [= <-]. constructor; [done|]. by apply IHok.
      * intros H. inversion H as [|p' t polys' ts' Hp Hps]; subst.
        rewrite Hp. apply IHok in Hps. by rewrite Hps.
    + split.
      * intros [e H]. destruct (bbox p) as [t|e'] eqn:Hp.
        -- apply Exists_cons_tl, IHraise.
           destruct (mapM bbox polys) as [ts|e'']; [discriminate | eauto].
        -- apply Exists_cons_hd. by apply bbox_raises in Hp as [_ Hp].
      * intros H. apply Exists_cons in H as [H|H].
        -- rewrite (bbox_short p H). eauto.
        -- destruct (bbox p) as [t|e']; [|eauto].
           apply IHraise in H as [e H]. rewrite H. eauto.
    + intros e. destruct (bbox p) as [t|e'] eqn:Hp.
      * destruct (mapM bbox polys) as [ts|e'']; [discriminate|].
        intros [= <-]. by apply IHexn.
      * intros [= <-]. by apply bbox_raises in Hp as [Hp _].
Qed.

(** X6. [bbox] does not sort what it returns: for an axis-aligned rectangle
    the tuple is in the order [(left, bottom, right, top)] exactly when the
    polygon starts at its lower left corner, that is, when no row of the
    array lies to the left of or below its first row. *)
Theorem bbox_left_bottom_right_top (poly : polygon) v0 x0 y0 x2 y2 :
  axis_aligned_rectangle poly →
  poly !! 0%nat = Some v0 →
  bbox poly = Ok (x0, y0, x2, y2) →
  (x0 <= x2 ∧ y0 <= y2)%Q ↔
  Forall (fun p => (v0.1 <= p.1 ∧ v0.2 <= p.2)%Q) poly.
Proof.
  intros ([ax ay] & [bx by_] & [cx cy] & [dx dy] & Hrows & Hsides).
  pose proof (Qle_refl ax). pose proof (Qle_refl ay).
  destruct Hrows as [-> | ->];
    intros [= <-]; intros [= <- <- <- <-]; simpl in Hsides;
    rewrite !Forall_cons, Forall_nil; simpl;
    destruct Hsides as [(<- & -> & <- & ->) | (<- & -> & <- & ->)]; tauto.
Qed.

Lemma bbox_left_bottom_right_top_witness :
  let poly := box_polygon (1, 0, 0, 2)%Q in
  poly !! 0%nat = Some (1, 0)%Q ∧
  bbox poly = Ok (1, 0, 0, 2)%Q ∧
  ¬ Forall (fun p : point => (1 <= p.1 ∧ 0 <= p.2)%Q) poly.
Proof.
  intros poly. split; [reflexivity|]. split; [reflexivity|]. intros H.
  apply (bbox_left_bottom_right_top poly (1, 0)%Q 1 0 0 2
           (box_polygon_rectangle _) eq_refl eq_refl) in H.
  destruct H as [H _]. by apply Qle_bool_iff in H.
Defined.

(** ** The cell of the bounding boxes *)

(** What [stream.element] reads when it succeeds. *)
Lemma stream_element_inv n w e :
  ((name n ≫= stream_element) w).1 = Ok e →
  ∃ l s src,
    globals w !! n = Some (VRef l) ∧
    heap w !! l = Some (OStream s) ∧
    heap w !! source s = Some (OElement src) ∧
    e = element_of s src.
Proof.
  unfold stream_element, the_stream, the_element, name, mbind, M_bind, get.
  simpl.
  destruct (globals w !! n) as [[]|]; simpl; try discriminate.
  destruct (heap w !! l) as [[|s]|] eqn:Hl; simpl; try discriminate.
  destruct (heap w !! source s) as [[src|]|] eqn:Hs; simpl; try discriminate.
  intros [= <-]. eauto 10.
Qed.

(** X7. The cell of lines 129-137, when the box stream has polygons: it
    binds [polygons], and then either prints the list of their bounding
    boxes and binds it to [bboxes], or, when the comprehension raises,
    raises with it before anything is printed or bound to [bboxes]. *)
Theorem cell_show_boxes_with_data w e polys :
  ((name "box_stream" ≫= stream_element) w).1 = Ok e →
  nonzero e = true →
  split e = Ok polys →
  let w0 :=
    set_globals
      (<["polygons" := VPolygons polys]>
         (<["bbox" := VFunction "bbox"]> (globals w))) w in
  (∀ ts,
     mapM bbox polys = Ok ts →
     cell_show_boxes w =
       (Ok (),
        set_out (out w ++ [Print (VTuples ts)])
          (set_globals (<["bboxes" := VTuples ts]> (globals w0)) w0))) ∧
  (∀ ex,
     mapM bbox polys = Raise ex → cell_show_boxes w = (Raise ex, w0)).
Proof.
  intros He Hnz Hsplit w0.
  apply stream_element_inv in He as (l & s & src & Hname & Hl & Hsrc & ->).
  assert (Hcell : cell_show_boxes w =
    (bboxes ← lift (mapM bbox polys);
     assign "bboxes" (VTuples bboxes);;
     print (VTuples bboxes)) w0).
  { unfold cell_show_boxes, if_element, stream_element, the_stream,
      the_element, name, mbind, M_bind, get, assign, lift.
    repeat progress
      (cbn [globals heap set_globals mret M_ret raise];
       rewrite ?lookup_insert_ne by done;
       rewrite ?Hname, ?Hl, ?Hsrc, ?Hnz, ?Hsplit).
    reflexivity. }
  rewrite Hcell. unfold mbind, M_bind, lift, assign, print.
  split.
  - intros ts ->. done.
  - intros ex ->. done.
Qed.

Lemma cell_show_boxes_with_data_witness :
  let w := (front_end_update 3 (BoxColumns [1%Q] [3%Q] [2%Q] [5%Q])
              configured_kernel).2 in
  (cell_show_boxes w).1 = Ok () ∧
  out (cell_show_boxes w).2 = out w ++ [Print (VTuples [(1, 2, 3, 5)%Q])].
Proof.
  intros w.
  destruct (cell_show_boxes_with_data w
              (Element Polygons [[(1, 2); (1, 5); (3, 5); (3, 2); (1, 2)]%Q])
              [[(1, 2); (1, 5); (3, 5); (3, 2); (1, 2)]%Q]) as [Hok _].
  - vm_compute. reflexivity.
  - reflexivity.
  - reflexivity.
  - rewrite (Hok [(1, 2, 3, 5)%Q]) by reflexivity. split; reflexivity.
Defined.

(** ** Reading the streams back *)

Ltac run_read :=
  cbn [globals heap fs out set_globals set_out mret M_ret raise lift
       data_truth];
  rewrite ?lookup_insert_ne by done.

(** X8. A cell that shows a stream, run before the stream's name is bound,
    raises [NameError] for that name; it shows nothing, writes nothing and
    adds no object. *)
Theorem read_before_configuration :
  Forall (fun '(n, c) =>
            ∀ w, globals w !! n = None →
                 (c w).1 = Raise (NameError n) ∧
                 out (c w).2 = out w ∧ fs (c w).2 = fs w ∧
                 heap (c w).2 = heap w)
    shows.
Proof.
  unfold shows.
  repeat first [apply Forall_nil_2 | apply Forall_cons_2];
    intros w H; unfold_cells; unfold mbind, M_bind, get, assign;
    run_read; rewrite H; done.
Qed.

Lemma read_before_configuration_witness :
  globals (fresh_kernel ∅) !! "point_stream" = None ∧
  (cell_show_points (fresh_kernel ∅)).1 = Raise (NameError "point_stream").
Proof.
  pose proof read_before_configuration as H.
  apply Forall_inv in H. split; [reflexivity|].
  by apply (H (fresh_kernel ∅)).
Defined.

Ltac read_case :=
  match goal with
  | |- context [match globals ?w !! ?n with _ => _ end] =>
      destruct (globals w !! n) eqn:?
  | |- context [match heap ?w !! ?l with _ => _ end] =>
      destruct (heap w !! l) eqn:?
  | |- context [match split ?e with _ => _ end] => destruct (split e) eqn:?
  | |- context [match mapM bbox ?ps with _ => _ end] =>
      destruct (mapM bbox ps) eqn:?
  | |- context [match data ?s with _ => _ end] => destruct (data s) eqn:?
  | |- context [if data_truth (data ?s) then _ else _] =>
      destruct (data s) eqn:?
  | |- context [if nonzero ?e then _ else _] => destruct (nonzero e) eqn:?
  | |- context [match ?x with _ => _ end] => is_var x; destruct x
  end.

Ltac use_eqs :=
  repeat match goal with
         | H : _ !! _ = _ |- _ => rewrite H
         | H : heap _ = heap _ |- _ => rewrite H
         end.

Ltac read_leaf :=
  split;
  [ reflexivity
  | first [ exists []; by rewrite !app_nil_r
          | eexists [_]; split; reflexivity ] ].

Lemma shows_read_heap_and_name :
  Forall (fun '(n, c) =>
            ∀ w w', heap w' = heap w → globals w' !! n = globals w !! n →
                    (c w').1 = (c w).1 ∧
                    ∃ shown, out (c w).2 = out w ++ shown ∧
                             out (c w').2 = out w' ++ shown)
    shows.
Proof.
  unfold shows.
  repeat first [apply Forall_nil_2 | apply Forall_cons_2];
    intros w w' Hh Hg; unfold_cells; unfold mbind, M_bind, get, assign;
    run_read; use_eqs;
    repeat (read_case; repeat progress (run_read; use_eqs));
    read_leaf.
Qed.

Lemma shows_same_objects : Forall (fun nc => preserves same_objects nc.2) shows.
Proof.
  unfold shows.
  repeat first [apply Forall_nil_2 | apply Forall_cons_2];
    simpl; unfold_cells; frame_same_objects.
Qed.

(** X9. What a cell that shows a stream does depends on the heap and on
    the binding of the stream's name alone: from two worlds that agree on
    these, it returns or raises alike and shows the same. *)
Theorem shows_depend_on_heap_and_name :
  Forall (fun '(n, c) =>
            ∀ w w', heap w' = heap w → globals w' !! n = globals w !! n →
                    (c w').1 = (c w).1 ∧
                    ∃ shown, out (c w).2 = out w ++ shown ∧
                             out (c w').2 = out w' ++ shown)
    shows.
Proof. exact shows_read_heap_and_name. Qed.

Lemma shows_depend_on_heap_and_name_witness :
  let w := edited_kernel in
  let w' := set_out [] (set_fs ∅ w) in
  (cell_show_points w').1 = (cell_show_points w).1.
Proof.
  pose proof shows_depend_on_heap_and_name as H. apply Forall_inv in H.
  assert (G : ∀ v, (cell_show_points (set_out [] (set_fs ∅ v))).1
                   = (cell_show_points v).1).
  { intros v.
    destruct (H v (set_out [] (set_fs ∅ v)) eq_refl eq_refl) as [H1 _].
    exact H1. }
  exact (G edited_kernel).
Defined.

(** X10. A cell that shows a stream can be run again: with no update from
    the front end in between, the second run returns or raises as the first
    did and shows the same once more. *)
Theorem shows_repeatable : Forall (fun nc => repeatable nc.2) shows.
Proof.
  pose proof shows_read_heap_and_name as Hread.
  pose proof shows_same_objects as Hsame.
  rewrite Forall_forall in *. intros [n c] Hin w. simpl.
  specialize (Hread _ Hin). specialize (Hsame _ Hin w). simpl in *.
  destruct Hsame as [Hheap Hnames].
  apply Hread; [exact Hheap|].
  rewrite Forall_forall in Hnames. apply Hnames.
  unfold shows in Hin. rewrite !elem_of_cons in Hin.
  unfold configured_names. rewrite !elem_of_cons.
  repeat destruct Hin as [[= -> _]|Hin]; try tauto.
  by apply not_elem_of_nil in Hin.
Qed.

(** ** The names after the configuration *)

Lemma configuration_names rand f first rest :
  f !! shapefile = Some (File (first :: rest)) →
  ∃ w, run_all (configuration rand) (fresh_kernel f) = (Ok (), w) ∧
       heap w = configured_heap rand first ∧
       globals w !! "mask_poly" = Some (VRef 4) ∧
       globals w !! "new_polys" = Some (VRef 12) ∧
       globals w !! "poly_stream" = Some (VRef 13) ∧
       globals w !! "vertex_stream" = Some (VRef 14).
Proof.
  intros H. unfold configuration.
  do 3 run_cell.
  rewrite run_all_cons, (cell_mask_found _ first rest) by exact H.
  eval_cell.
  do 3 run_cell.
  eexists. split; [reflexivity|].
  repeat split; vm_compute; reflexivity.
Qed.

(** X11. The last configuration cell binds [poly_stream] and
    [vertex_stream] anew.  After the configuration [vertex_stream] names
    the [PolyEdit] stream over [new_polys], not the one that line 177 made
    over [mask_poly], which is still on the heap; and [poly_stream] names
    the [PolyDraw] stream over the same [new_polys]. *)
Theorem last_section_rebinds_the_streams rand f first rest w :
  f !! shapefile = Some (File (first :: rest)) →
  run_all (configuration rand) (fresh_kernel f) = (Ok (), w) →
  ∃ l s l' s' ld sd,
    globals w !! "vertex_stream" = Some (VRef l) ∧
    heap w !! l = Some (OStream s) ∧ kind s = PolyEdit ∧
    globals w !! "new_polys" = Some (VRef (source s)) ∧
    l' ≠ l ∧
    heap w !! l' = Some (OStream s') ∧ kind s' = PolyEdit ∧
    globals w !! "mask_poly" = Some (VRef (source s')) ∧
    globals w !! "poly_stream" = Some (VRef ld) ∧
    heap w !! ld = Some (OStream sd) ∧ kind sd = PolyDraw ∧
    source sd = source s.
Proof.
  intros Hf Hrun.
  destruct (configuration_names rand f first rest Hf)
    as (w' & Hrun' & Hheap & Hmask & Hpolys & Hdraw & Hedit).
  rewrite Hrun in Hrun'. injection Hrun' as <-.
  exists 14%nat, (Stream PolyEdit 12 None false None),
    5%nat, (Stream PolyEdit 4 None false None),
    13%nat, (Stream PolyDraw 12 None false None).
  rewrite Hheap. repeat split; done.
Qed.

Lemma last_section_rebinds_the_streams_witness :
  ∃ l s,
    globals configured_kernel !! "vertex_stream" = Some (VRef l) ∧
    heap configured_kernel !! l = Some (OStream s) ∧
    globals configured_kernel !! "new_polys" = Some (VRef (source s)).
Proof.
  destruct (last_section_rebinds_the_streams sample_rand sample_files
              [(0, 0); (4, 0); (4, 3)]%Q [] configured_kernel)
    as (l & s & _ & _ & _ & _ & Hl & Hs & _ & Hsrc & _).
  - vm_compute. reflexivity.
  - apply run_result. vm_compute. reflexivity.
  - exists l, s. split; [exact Hl|]. split; [exact Hs | exact Hsrc].
Defined.

(** ** The configuration without the shapefile *)

Lemma cell_mask_not_found w :
  (∀ first rest, fs w !! shapefile ≠ Some (File (first :: rest))) →
  ∃ e, cell_mask w =
         (Raise e,
          set_globals (<["shapefile" := VStr shapefile]> (globals w)) w).
Proof.
  intros H. unfold cell_mask, from_shapefile, mbind, M_bind, assign, get.
  cbn [fs set_globals mret M_ret raise].
  destruct (fs w !! shapefile) as [[|[|first rest]]|] eqn:E; eauto.
  by destruct (H first rest).
Qed.

Lemma configuration_fails rand f :
  (∀ first rest, f !! shapefile ≠ Some (File (first :: rest))) →
  ∃ e w, run_all (configuration rand) (fresh_kernel f) = (Raise e, w) ∧
         kind <$> streams (heap w) = [PointDraw; BoxEdit].
Proof.
  intros H. unfold configuration.
  do 3 run_cell. rewrite run_all_cons.
  match goal with
  | |- context [cell_mask ?w] =>
      destruct (cell_mask_not_found w H) as [e ->]
  end.
  eexists _, _. split; [reflexivity|]. vm_compute. reflexivity.
Qed.

(** X12. Run from a fresh kernel, the configuration goes through exactly
    when the watershed shapefile is there and holds a shape.  Otherwise it
    stops at line 175, and of the streams only the point stream and the box
    stream have been built. *)
Theorem configuration_needs_the_shapefile rand f :
  ((run_all (configuration rand) (fresh_kernel f)).1 = Ok () ↔
   ∃ first rest, f !! shapefile = Some (File (first :: rest))) ∧
  ((run_all (configuration rand) (fresh_kernel f)).1 ≠ Ok () →
   kind <$> streams (heap (run_all (configuration rand) (fresh_kernel f)).2)
     = [PointDraw; BoxEdit]).
Proof.
  assert (Hcases :
    (∃ first rest, f !! shapefile = Some (File (first :: rest))) ∨
    ∀ first rest, f !! shapefile ≠ Some (File (first :: rest))).
  { destruct (f !! shapefile) as [[|[|first rest]]|]; eauto; right; done. }
  destruct Hcases as [(first & rest & Hf) | Hno].
  - destruct (configuration_runs rand f first rest Hf) as (w & -> & _).
    split; [split; eauto|]. simpl. done.
  - destruct (configuration_fails rand f Hno) as (e & w & -> & Hstreams).
    split; [split|].
    + simpl. discriminate.
    + intros (first & rest & Hf). by destruct (Hno first rest).
    + intros _. exact Hstreams.
Qed.

Lemma configuration_needs_the_shapefile_witness :
  (run_all (configuration sample_rand) (fresh_kernel ∅)).1 ≠ Ok () ∧
  kind <$> streams
             (heap (run_all (configuration sample_rand) (fresh_kernel ∅)).2)
    = [PointDraw; BoxEdit].
Proof.
  assert (H : (run_all (configuration sample_rand) (fresh_kernel ∅)).1
              ≠ Ok ()) by (vm_compute; discriminate).
  split; [exact H|].
  exact (proj2 (configuration_needs_the_shapefile sample_rand ∅) H).
Defined.
